(** * LinuxSystemMonitor

    A shallow embedding of the two programs of the repository:

    - [src/kernel/system_monitor.c], the kernel module that samples the
      system once per second into a history ring buffer and a process
      table, renders a textual report and accepts enable/disable commands;
    - [src/userspace/system_monitor_display.c], the client that parses the
      report line by line.

    The module's threads are modelled sequentially: one iteration of the
    sampling loop, one control write and one report rendering are each a
    function on the module's global state.  What the kernel hands to the
    module (task list, per-CPU counters, memory and network counters, the
    clock) is an explicit input of those functions. *)

From Stdlib Require Import ZArith Lia List Ascii String DecimalString DecimalPos.
From stdpp Require Import base list.

Open Scope Z_scope.

(** ** C text and integers *)

(** A C string is the list of its characters before the terminating NUL. *)
Abbreviation text := (list ascii).

Definition cs (s : string) : text := list_ascii_of_string s.

Definition NUL : ascii := "000"%char.
Definition LF : ascii := "010"%char.
Definition COMMA : ascii := ","%char.
Definition COLON : ascii := ":"%char.

#[global] Instance ascii_eq_dec : EqDecision ascii := ascii_dec.
#[global] Instance ascii_inhabited : Inhabited ascii := populate NUL.

(** Decimal rendering of an integer, as the [%d], [%lu] and [%llu]
    conversions print it. *)
Definition dec (z : Z) : text := cs (NilZero.string_of_int (Z.to_int z)).

(** The characters of a decimal rendering. *)
Definition dec_char (c : ascii) : Prop := c ∈ cs "-0123456789".

#[global] Instance dec_char_dec c : Decision (dec_char c).
Proof. unfold dec_char. apply _. Defined.

(** Unsigned 64-bit arithmetic wraps around. *)
Definition u64 (z : Z) : Z := z mod 2 ^ 64.

(** Reading and writing a C array held as a list.  Every index the module
    computes is in range (see [history_idx_range]); outside the range, where
    C leaves the behaviour undefined, the model reads the default value and
    writes nothing. *)
Definition aget {A} `{Inhabited A} (a : list A) (i : Z) : A := a !!! Z.to_nat i.
Definition aset {A} (a : list A) (i : Z) (x : A) : list A := <[Z.to_nat i := x]> a.

(** The word size and the page size are fixed by the architecture the
    module is built for. *)
Class Arch := { PAGE_SHIFT : Z; BITS_PER_LONG : Z }.

(** [unsigned long] arithmetic wraps around at the word size. *)
Definition ulong `{Arch} (z : Z) : Z := z mod 2 ^ BITS_PER_LONG.

(** [x << n] on an [unsigned long]. *)
Definition shl_ulong `{Arch} (x n : Z) : Z := ulong (Z.shiftl x n).

(** ** The kernel module, [src/kernel/system_monitor.c] *)

Module Kernel.

Definition HISTORY_SIZE : Z := 60.
Definition MAX_PROCESSES : Z := 50.
Definition EFAULT : Z := 14.

(** *** Data structures *)

(** [stats_history]: the circular buffer (the spinlock carries no data). *)
Record stats_history_t := {
  cpu_usage : list Z;
  mem_usage : list Z;
  head : Z
}.

Record process_stats := {
  pid : Z;
  cpu_time : Z;
  vm_size : Z;
  comm : text
}.

#[global] Instance process_stats_inhabited : Inhabited process_stats :=
  populate {| pid := 0; cpu_time := 0; vm_size := 0; comm := [] |}.

(** The fields of a [task_struct] the module reads.  [task_mm] is [None]
    for a kernel thread ([task->mm == NULL]) and otherwise holds
    [mm->total_vm]. *)
Record task_struct := {
  task_pid : Z;
  utime : Z;
  stime : Z;
  task_mm : option Z;
  task_comm : text;
  ioac_read_bytes : Z;
  ioac_write_bytes : Z
}.

(** [struct kernel_cpustat]: the array [cpustat[NR_STATS]]. *)
Record kernel_cpustat := { cpustat : list Z }.

(** [struct sysinfo], as filled by [si_meminfo]. *)
Record sysinfo := { totalram : Z; freeram : Z }.

Record rtnl_link_stats64 := {
  rx_bytes : Z;
  tx_bytes : Z;
  rx_packets : Z;
  tx_packets : Z
}.

(** What the kernel returns to the module at one instant:
    [for_each_process], [for_each_possible_cpu], [si_meminfo],
    [for_each_netdev_rcu], [get_jiffies_64] and [si_mem_available]. *)
Record raw_metrics := {
  tasks : list task_struct;
  possible_cpus : list kernel_cpustat;
  meminfo : sysinfo;
  netdevs : list rtnl_link_stats64;
  jiffies_64 : Z;
  mem_available : Z
}.

(** The module's global variables. *)
Record kstate := {
  stats_history : stats_history_t;
  monitoring : Z;
  top_processes : list process_stats
}.

(** A [seq_file] is the text written to it so far. *)
Abbreviation seq_file := (list ascii).

Definition seq_puts (m : seq_file) (s : text) : seq_file := m ++ s.
Definition seq_printf (m : seq_file) (s : text) : seq_file := m ++ s.

(** *** The enumerations of the kernel headers

    [get_cpu_stats] indexes [cpustat] with enumerators of two different
    enumerations.  Both are declared in headers the module includes, not in
    the repository: [enum cpu_usage_stat] in [linux/kernel_stat.h] names the
    slots of [cpustat], [enum vtime_state] in [linux/sched.h] names the
    states of the virtual CPU time accounting. *)

Inductive cpu_usage_stat :=
  | CPUTIME_USER | CPUTIME_NICE | CPUTIME_SYSTEM | CPUTIME_SOFTIRQ
  | CPUTIME_IRQ | CPUTIME_IDLE | CPUTIME_IOWAIT | CPUTIME_STEAL
  | CPUTIME_GUEST | CPUTIME_GUEST_NICE.

Definition cpu_usage_stat_value (c : cpu_usage_stat) : Z :=
  match c with
  | CPUTIME_USER => 0 | CPUTIME_NICE => 1 | CPUTIME_SYSTEM => 2
  | CPUTIME_SOFTIRQ => 3 | CPUTIME_IRQ => 4 | CPUTIME_IDLE => 5
  | CPUTIME_IOWAIT => 6 | CPUTIME_STEAL => 7 | CPUTIME_GUEST => 8
  | CPUTIME_GUEST_NICE => 9
  end.

Inductive vtime_state :=
  | VTIME_INACTIVE | VTIME_IDLE | VTIME_SYS | VTIME_USER | VTIME_GUEST.

Definition vtime_state_value (v : vtime_state) : Z :=
  match v with
  | VTIME_INACTIVE => 0 | VTIME_IDLE => 1 | VTIME_SYS => 2
  | VTIME_USER => 3 | VTIME_GUEST => 4
  end.

Section Module_code.
Context `{Arch}.

(** *** [collect_process_stats] *)

(** The assignments to [*stats] in the loop body. *)
Definition stats_of_task (task : task_struct) : process_stats :=
  {| pid := task_pid task;
     cpu_time := u64 (utime task + stime task);
     vm_size := match task_mm task with
                | Some total_vm => shl_ulong total_vm PAGE_SHIFT
                | None => 0
                end;
     comm := task_comm task |}.

(** The [for_each_process] loop with its counter [i]. *)
Fixpoint collect_loop (ts : list task_struct) (i : Z)
    (tp : list process_stats) : list process_stats :=
  match ts with
  | [] => tp
  | task :: ts' =>
      if MAX_PROCESSES <=? i then tp
      else collect_loop ts' (i + 1) (aset tp i (stats_of_task task))
  end.

Definition collect_process_stats (ts : list task_struct)
    (tp : list process_stats) : list process_stats :=
  collect_loop ts 0 tp.

(** *** [monitor_function] *)

(** The critical section of the loop body: store the sample at [head] and
    advance [head]. *)
Definition history_append (h : stats_history_t) (e : Z * Z) : stats_history_t :=
  {| cpu_usage := aset (cpu_usage h) (head h) (fst e);
     mem_usage := aset (mem_usage h) (head h) (snd e);
     head := Z.rem (head h + 1) HISTORY_SIZE |}.

(** The pair stored by one iteration: both values are converted to [u64]. *)
Definition sample_of (env : raw_metrics) : Z * Z :=
  (u64 (jiffies_64 env), u64 (mem_available env)).

(** One iteration of the [while] loop (the sleep has no effect on the
    state). *)
Definition monitor_iteration (env : raw_metrics) (st : kstate) : kstate :=
  if monitoring st =? 1 then
    {| stats_history := history_append (stats_history st) (sample_of env);
       monitoring := monitoring st;
       top_processes := collect_process_stats (tasks env) (top_processes st) |}
  else st.

(** The loop, run once for each element of [envs] until
    [kthread_should_stop]. *)
Definition monitor_function (envs : list raw_metrics) (st : kstate) : kstate :=
  fold_left (fun s env => monitor_iteration env s) envs st.

(** *** [control_write] *)

(** The [count] bytes at the user pointer [buffer]: [Some c] for a byte that
    can be read, [None] for one whose address faults. *)
Definition copy_from_user (buffer : list (option ascii)) (len : nat) : option text :=
  mapM id (take len buffer).

(** [strncmp] on NUL-terminated strings: a list that ends is read as ending
    in NUL. *)
Fixpoint strncmp (s1 s2 : text) (n : nat) : Z :=
  match n with
  | O => 0
  | S n' =>
      let c1 := hd NUL s1 in
      let c2 := hd NUL s2 in
      if decide (c1 = c2) then
        if decide (c1 = NUL) then 0 else strncmp (tl s1) (tl s2) n'
      else Z.of_nat (nat_of_ascii c1) - Z.of_nat (nat_of_ascii c2)
  end.

Definition set_monitoring (v : Z) (st : kstate) : kstate :=
  {| stats_history := stats_history st;
     monitoring := v;
     top_processes := top_processes st |}.

(** The result is the returned [ssize_t] and the state after the call;
    [count] is the length of [buffer]. *)
Definition control_write (buffer : list (option ascii)) (st : kstate) : Z * kstate :=
  let count := Z.of_nat (length buffer) in
  let len := Z.min count (32 - 1) in
  match copy_from_user buffer (Z.to_nat len) with
  | None => (- EFAULT, st)
  | Some bytes =>
      let cmd := bytes ++ [NUL] in
      if strncmp cmd (cs "enable") 6 =? 0 then (count, set_monitoring 1 st)
      else if strncmp cmd (cs "disable") 7 =? 0 then (count, set_monitoring 0 st)
      else (count, st)
  end.

(** *** [show_history] *)

Definition history_idx (hd i : Z) : Z :=
  Z.rem (hd - i - 1 + HISTORY_SIZE) HISTORY_SIZE.

(** The three arguments of the [seq_printf] of iteration [i]. *)
Definition history_row (h : stats_history_t) (i : Z) : Z * Z * Z :=
  let idx := history_idx (head h) i in
  (i, aget (cpu_usage h) idx, aget (mem_usage h) idx).

Definition history_rows (h : stats_history_t) : list (Z * Z * Z) :=
  history_row h <$> seqZ 0 HISTORY_SIZE.

Definition history_line (r : Z * Z * Z) : text :=
  let '(i, cpu, mem) := r in
  dec i ++ [COMMA] ++ dec (u64 cpu) ++ [COMMA] ++ dec (u64 mem) ++ [LF].

Definition history_header : text := cs "history:" ++ [LF].

Definition show_history (m : seq_file) (h : stats_history_t) : seq_file :=
  fold_left (fun m r => seq_printf m (history_line r)) (history_rows h)
    (seq_puts m history_header).

(** The samples of a snapshot, without the position column. *)
Definition history_entries (h : stats_history_t) : list (Z * Z) :=
  (fun r : Z * Z * Z => (snd (fst r), snd r)) <$> history_rows h.

(** *** [show_top_processes] *)

(** The slots the loop prints: it stops at the first slot whose pid is 0. *)
Fixpoint top_rows (tp : list process_stats) : list process_stats :=
  match tp with
  | [] => []
  | p :: tp' => if pid p =? 0 then [] else p :: top_rows tp'
  end.

Definition process_line (p : process_stats) : text :=
  dec (pid p) ++ [COMMA] ++ comm p ++ [COMMA] ++ dec (u64 (cpu_time p))
    ++ [COMMA] ++ dec (ulong (vm_size p)) ++ [LF].

Definition top_processes_header : text := [LF] ++ cs "top_processes:" ++ [LF].

Definition show_top_processes (m : seq_file) (tp : list process_stats) : seq_file :=
  fold_left (fun m p => seq_printf m (process_line p))
    (top_rows (take (Z.to_nat MAX_PROCESSES) tp))
    (seq_puts m top_processes_header).

(** *** The live sections *)

(** The four accumulators of [get_cpu_stats] after the loop over the
    CPUs. *)
Definition cpu_sums (cpus : list kernel_cpustat) : Z * Z * Z * Z :=
  fold_left
    (fun '(user, nice, system, idle) kcs =>
       (u64 (user + aget (cpustat kcs) (vtime_state_value VTIME_USER)),
        u64 (nice + aget (cpustat kcs) (cpu_usage_stat_value CPUTIME_NICE)),
        u64 (system + aget (cpustat kcs) (vtime_state_value VTIME_SYS)),
        u64 (idle + aget (cpustat kcs) (vtime_state_value VTIME_IDLE))))
    cpus (0, 0, 0, 0).

Definition cpu_stats_line (user nice system idle : Z) : text :=
  cs "cpu_stats:" ++ dec user ++ [COMMA] ++ dec nice ++ [COMMA]
    ++ dec system ++ [COMMA] ++ dec idle ++ [LF].

Definition get_cpu_stats (m : seq_file) (env : raw_metrics) : seq_file :=
  let '(user, nice, system, idle) := cpu_sums (possible_cpus env) in
  seq_printf m (cpu_stats_line user nice system idle).

Definition memory_stats_line (total_kb free_kb used_kb : Z) : text :=
  cs "memory_stats:" ++ dec total_kb ++ [COMMA] ++ dec free_kb ++ [COMMA]
    ++ dec used_kb ++ [LF].

(** The three arguments of the [seq_printf] of [get_memory_stats]. *)
Definition memory_kb (si : sysinfo) : Z * Z * Z :=
  (shl_ulong (totalram si) (PAGE_SHIFT - 10),
   shl_ulong (freeram si) (PAGE_SHIFT - 10),
   shl_ulong (ulong (totalram si - freeram si)) (PAGE_SHIFT - 10)).

Definition get_memory_stats (m : seq_file) (env : raw_metrics) : seq_file :=
  let '(total_kb, free_kb, used_kb) := memory_kb (meminfo env) in
  seq_printf m (memory_stats_line total_kb free_kb used_kb).

Definition process_count_line (count : Z) : text :=
  cs "process_count:" ++ dec count ++ [LF].

Definition get_process_count (m : seq_file) (env : raw_metrics) : seq_file :=
  let count := fold_left (fun count _ => count + 1) (tasks env) 0 in
  seq_printf m (process_count_line count).

Definition io_sums (ts : list task_struct) : Z * Z :=
  fold_left
    (fun '(read_bytes, write_bytes) task =>
       ((if ioac_read_bytes task =? 0 then read_bytes
         else ulong (read_bytes + ioac_read_bytes task)),
        (if ioac_write_bytes task =? 0 then write_bytes
         else ulong (write_bytes + ioac_write_bytes task))))
    ts (0, 0).

Definition io_stats_line (read_bytes write_bytes : Z) : text :=
  cs "io_stats:" ++ dec read_bytes ++ [COMMA] ++ dec write_bytes ++ [LF].

Definition get_io_stats (m : seq_file) (env : raw_metrics) : seq_file :=
  let '(read_bytes, write_bytes) := io_sums (tasks env) in
  seq_printf m (io_stats_line read_bytes write_bytes).

Definition net_sums (devs : list rtnl_link_stats64) : Z * Z * Z * Z :=
  fold_left
    (fun '(rxb, txb, rxp, txp) stats =>
       (ulong (rxb + rx_bytes stats), ulong (txb + tx_bytes stats),
        ulong (rxp + rx_packets stats), ulong (txp + tx_packets stats)))
    devs (0, 0, 0, 0).

Definition network_stats_line (rxb txb rxp txp : Z) : text :=
  cs "network_stats:" ++ dec rxb ++ [COMMA] ++ dec txb ++ [COMMA]
    ++ dec rxp ++ [COMMA] ++ dec txp ++ [LF].

Definition get_network_stats (m : seq_file) (env : raw_metrics) : seq_file :=
  let '(rxb, txb, rxp, txp) := net_sums (netdevs env) in
  seq_printf m (network_stats_line rxb txb rxp txp).

(** *** [system_stats_show] *)

Definition system_stats_show (m : seq_file) (env : raw_metrics) (st : kstate)
    : Z * seq_file :=
  let m := get_cpu_stats m env in
  let m := get_memory_stats m env in
  let m := get_process_count m env in
  let m := get_io_stats m env in
  let m := get_network_stats m env in
  let m := show_history m (stats_history st) in
  let m := show_top_processes m (top_processes st) in
  (0, m).

End Module_code.

(** *** Invariants and reference values *)

(** The shape of the ring buffer: two arrays of [HISTORY_SIZE] slots and a
    [head] inside them.  [system_monitor_init] establishes it and every
    append keeps it (see [history_append_wf]). *)
Definition history_wf (h : stats_history_t) : Prop :=
  length (cpu_usage h) = Z.to_nat HISTORY_SIZE ∧
  length (mem_usage h) = Z.to_nat HISTORY_SIZE ∧
  0 ≤ head h < HISTORY_SIZE.

(** The sum over all CPUs of the counter that [enum cpu_usage_stat] names
    [c], in 64-bit arithmetic. *)
Definition cpu_counter_sum (c : cpu_usage_stat) (cpus : list kernel_cpustat) : Z :=
  fold_left (fun acc kcs => u64 (acc + aget (cpustat kcs) (cpu_usage_stat_value c)))
    cpus 0.

(** Text that holds neither a colon nor a line feed, so that it stays
    inside the line and the field it is printed in. *)
Definition plain (s : text) : Prop := Forall (fun c => c ≠ COLON ∧ c ≠ LF) s.

(** *** The state once [system_monitor_init] has run

    The globals have static storage, so every array slot starts at zero;
    [monitoring] is initialised to 1 and [head] is reset to 0. *)
Definition init_state : kstate :=
  {| stats_history :=
       {| cpu_usage := replicate (Z.to_nat HISTORY_SIZE) 0;
          mem_usage := replicate (Z.to_nat HISTORY_SIZE) 0;
          head := 0 |};
     monitoring := 1;
     top_processes := replicate (Z.to_nat MAX_PROCESSES) inhabitant |}.

(** *** The module at run time

    Once loaded, the module state changes in two ways only: by an iteration
    of the sampling loop and by a write to the control file.  Rendering the
    report reads the state and leaves it as it is. *)

Inductive event :=
  | Tick (env : raw_metrics)
  | Write (buffer : list (option ascii)).

Section Run_time.
Context `{Arch}.

Definition step (st : kstate) (ev : event) : kstate :=
  match ev with
  | Tick env => monitor_iteration env st
  | Write buffer => snd (control_write buffer st)
  end.

Definition run (evs : list event) (st : kstate) : kstate :=
  fold_left step evs st.

End Run_time.

(** What every reachable state satisfies: the ring buffer is well formed,
    the table has its [MAX_PROCESSES] slots and the flag is 0 or 1. *)
Definition module_inv (st : kstate) : Prop :=
  history_wf (stats_history st)
  ∧ length (top_processes st) = Z.to_nat MAX_PROCESSES
  ∧ (monitoring st = 0 ∨ monitoring st = 1).

(** The sum of a list of integers. *)
Definition Zsum (l : list Z) : Z := foldr Z.add 0 l.

(** Slot [k] of [cpustat] on every CPU. *)
Definition cpustat_slot (k : Z) (cpus : list kernel_cpustat) : list Z :=
  (fun kcs => aget (cpustat kcs) k) <$> cpus.

(** *** [system_monitor_init]

    The kernel objects the module holds: the two proc entries, the pending
    timer and the running thread. *)
Record resources := {
  proc_entry : bool;
  control_entry : bool;
  stats_timer_pending : bool;
  monitor_thread : bool
}.

(** What the kernel answers to the calls of [system_monitor_init]: whether
    each [proc_create] returns an entry, and the error [kthread_run]
    returns in its pointer, if it fails. *)
Record init_env := {
  proc_create_stats : bool;
  proc_create_control : bool;
  kthread_run_error : option Z
}.

Definition ENOMEM : Z := 12.

(** The result is the returned [int], the kernel objects held and the
    module state when the function returns. *)
Definition system_monitor_init (k : init_env) (r : resources) (st : kstate)
    : Z * resources * kstate :=
  let st :=
    {| stats_history :=
         {| cpu_usage := cpu_usage (stats_history st);
            mem_usage := mem_usage (stats_history st);
            head := 0 |};
       monitoring := monitoring st;
       top_processes := top_processes st |} in
  let r := {| proc_entry := proc_create_stats k;
              control_entry := proc_create_control k;
              stats_timer_pending := stats_timer_pending r;
              monitor_thread := monitor_thread r |} in
  if negb (proc_entry r) || negb (control_entry r) then (- ENOMEM, r, st)
  else
    let r := {| proc_entry := proc_entry r;
                control_entry := control_entry r;
                stats_timer_pending := true;
                monitor_thread := monitor_thread r |} in
    match kthread_run_error k with
    | Some err => (err, r, st)
    | None =>
        (0, {| proc_entry := proc_entry r;
               control_entry := control_entry r;
               stats_timer_pending := stats_timer_pending r;
               monitor_thread := true |}, st)
    end.

(** [system_monitor_exit]: the timer is deleted, the thread stopped and
    both entries removed. *)
Definition system_monitor_exit (r : resources) : resources :=
  {| proc_entry := false;
     control_entry := false;
     stats_timer_pending := false;
     monitor_thread := false |}.

(** The module before it is loaded: zeroed static storage, [monitoring]
    at its initialiser, and no kernel object held. *)
Definition no_resources : resources :=
  {| proc_entry := false; control_entry := false;
     stats_timer_pending := false; monitor_thread := false |}.

(** A table row that fits a line of the client: a pid that is not
    negative, a name of at most 15 characters ([TASK_COMM_LEN - 1]) and
    without line feed. *)
Definition row_fits (p : process_stats) : Prop :=
  0 ≤ pid p < 2 ^ 31
  ∧ (length (comm p) ≤ 15)%nat
  ∧ Forall (fun c => c ≠ LF) (comm p).

Section Report_text.
Context `{Arch}.


End Report_text.

(** *** Inputs for the examples *)

(** A reading of the clock and of the available memory on a system on
    which nothing else is visible. *)
Definition reading (jiffies available : Z) : raw_metrics :=
  {| tasks := [];
     possible_cpus := [];
     meminfo := {| totalram := 0; freeram := 0 |};
     netdevs := [];
     jiffies_64 := jiffies;
     mem_available := available |}.

(** A user task with the given pid. *)
Definition user_task (p : Z) : task_struct :=
  {| task_pid := p; utime := 10; stime := 5; task_mm := Some 100;
     task_comm := cs "sh"; ioac_read_bytes := 0; ioac_write_bytes := 0 |}.

End Kernel.

(** ** The display client, [src/userspace/system_monitor_display.c] *)

Module Display.

Record system_stats := {
  user : Z;
  nice : Z;
  system : Z;
  idle : Z;
  total_mem : Z;
  free_mem : Z;
  used_mem : Z;
  process_count : Z;
  rx_bytes : Z;
  tx_bytes : Z;
  rx_packets : Z;
  tx_packets : Z
}.

(** *** [strtok] *)

(** Skip the delimiters at the start of [s]. *)
Fixpoint skip_delims (delim s : text) : text :=
  match s with
  | [] => []
  | c :: s' => if bool_decide (c ∈ delim) then skip_delims delim s' else s
  end.

(** Split [s] before its first delimiter. *)
Fixpoint token_end (delim s : text) : text * text :=
  match s with
  | [] => ([], [])
  | c :: s' =>
      if bool_decide (c ∈ delim) then ([], s)
      else let '(tok, rest) := token_end delim s' in (c :: tok, rest)
  end.

(** One call of [strtok] on the text [s] left to scan: the token, if there
    is one, and the text from which the next call [strtok(NULL, ...)]
    resumes.  The delimiter that ends the token is overwritten with NUL and
    scanning resumes behind it; a token that runs to the end of the string
    leaves nothing to scan. *)
Definition strtok (s delim : text) : option text * text :=
  match skip_delims delim s with
  | [] => (None, [])
  | s1 => let '(tok, rest) := token_end delim s1 in (Some tok, tl rest)
  end.

(** *** [sscanf] *)

Definition isspace (c : ascii) : bool :=
  bool_decide (c ∈ [" "; "009"; "010"; "011"; "012"; "013"]%char).

Definition digit_value (c : ascii) : option Z :=
  let n := Z.of_nat (nat_of_ascii c) in
  if (48 <=? n) && (n <=? 57) then Some (n - 48) else None.

Fixpoint skip_space (s : text) : text :=
  match s with
  | [] => []
  | c :: s' => if isspace c then skip_space s' else s
  end.

Fixpoint scan_digits (s : text) (acc : Z) : Z * text :=
  match s with
  | [] => (acc, [])
  | c :: s' =>
      match digit_value c with
      | Some d => scan_digits s' (10 * acc + d)
      | None => (acc, s)
      end
  end.

(** One integer conversion: white space, an optional sign, at least one
    digit.  The result is the number read and the text behind it. *)
Definition scan_number (s : text) : option (Z * text) :=
  let s := skip_space s in
  let '(neg, s) :=
    match s with
    | c :: s' =>
        if decide (c = "-"%char) then (true, s')
        else if decide (c = "+"%char) then (false, s')
        else (false, s)
    | [] => (false, s)
    end in
  match s with
  | c :: _ =>
      match digit_value c with
      | Some _ =>
          let '(v, rest) := scan_digits s 0 in
          Some (if neg : bool then - v else v, rest)
      | None => None
      end
  | [] => None
  end.

(** The numbers converted by a format of [n] integer conversions separated
    by commas: conversion stops at the first mismatch, and the conversions
    made before it have been stored. *)
Fixpoint sscanf_numbers (n : nat) (s : text) : list Z :=
  match n with
  | O => []
  | S n' =>
      match scan_number s with
      | None => []
      | Some (v, rest) =>
          v :: match n', rest with
               | S _, c :: rest' =>
                   if decide (c = COMMA) then sscanf_numbers n' rest' else []
               | _, _ => []
               end
      end
  end.

(** *** [read_stats]

    One call [fgets(line, n + 1, fp)] on a stream with the text [fp] left
    to read: at most [n] characters, up to and including the first line
    feed.  The result is the line and the text left after it. *)
Fixpoint fgets_line (n : nat) (fp : text) : text * text :=
  match n, fp with
  | O, _ => ([], fp)
  | _, [] => ([], [])
  | S n', c :: fp' =>
      if decide (c = LF) then ([c], fp')
      else let '(line, rest) := fgets_line n' fp' in (c :: line, rest)
  end.

(** The lines the loop [while (fgets(line, sizeof(line), fp))] obtains, with
    [sizeof(line) = 256].  [fgets] returns NULL once nothing is left; each
    call on a non-empty stream consumes at least one character, so a fuel
    of the length of the text is never exhausted early (see
    [fgets_lines_concat]). *)
Fixpoint fgets_lines (fuel : nat) (fp : text) : list text :=
  match fuel with
  | O => []
  | S fuel' =>
      match fp with
      | [] => []
      | _ => let '(line, rest) := fgets_line 255 fp in
             line :: fgets_lines fuel' rest
      end
  end.

Section Client_code.
Context `{Arch}.

(** The value [sscanf] stores for the number [z] it has read, as the C
    library of the client (glibc) converts it.  [%llu] and [%lu] go through
    [strtoull] and [strtoul]: a number whose digits exceed the largest
    value of the type gives that largest value, with or without a minus
    sign, and any other number written with a minus sign is negated in the
    unsigned type.  [%d] goes through [strtol], which gives [LONG_MAX] or
    [LONG_MIN] for a number outside the range of [long], and the result is
    cut to an [int].  [long] has [BITS_PER_LONG] bits, and never fewer than
    the 32 bits C requires. *)
Definition conv_unsigned (bits z : Z) : Z :=
  if Z.abs z <=? 2 ^ bits - 1 then z mod 2 ^ bits else 2 ^ bits - 1.

Definition conv_llu (z : Z) : Z := conv_unsigned 64 z.
Definition conv_lu (z : Z) : Z := conv_unsigned BITS_PER_LONG z.
Definition conv_d (z : Z) : Z :=
  let long_bits := Z.max BITS_PER_LONG 32 in
  let l := Z.max (- 2 ^ (long_bits - 1)) (Z.min z (2 ^ (long_bits - 1) - 1)) in
  (l + 2 ^ 31) mod 2 ^ 32 - 2 ^ 31.

(** The value of a field after a conversion that may not have taken
    place. *)
Definition store_llu (old : Z) (v : option Z) : Z := default old (conv_llu <$> v).
Definition store_lu (old : Z) (v : option Z) : Z := default old (conv_lu <$> v).
Definition store_d (old : Z) (v : option Z) : Z := default old (conv_d <$> v).

(** *** [parse_line] *)

Definition parse_line (line : text) (stats : system_stats) : system_stats :=
  let '(key, save) := strtok line [COLON] in
  let '(value, _) := strtok save [LF] in
  match key, value with
  | Some key, Some value =>
      if decide (key = cs "cpu_stats") then
        let vs := sscanf_numbers 4 value in
        {| user := store_llu (user stats) (vs !! 0%nat);
           nice := store_llu (nice stats) (vs !! 1%nat);
           system := store_llu (system stats) (vs !! 2%nat);
           idle := store_llu (idle stats) (vs !! 3%nat);
           total_mem := total_mem stats;
           free_mem := free_mem stats;
           used_mem := used_mem stats;
           process_count := process_count stats;
           rx_bytes := rx_bytes stats;
           tx_bytes := tx_bytes stats;
           rx_packets := rx_packets stats;
           tx_packets := tx_packets stats |}
      else if decide (key = cs "memory_stats") then
        let vs := sscanf_numbers 3 value in
        {| user := user stats;
           nice := nice stats;
           system := system stats;
           idle := idle stats;
           total_mem := store_lu (total_mem stats) (vs !! 0%nat);
           free_mem := store_lu (free_mem stats) (vs !! 1%nat);
           used_mem := store_lu (used_mem stats) (vs !! 2%nat);
           process_count := process_count stats;
           rx_bytes := rx_bytes stats;
           tx_bytes := tx_bytes stats;
           rx_packets := rx_packets stats;
           tx_packets := tx_packets stats |}
      else if decide (key = cs "process_count") then
        let vs := sscanf_numbers 1 value in
        {| user := user stats;
           nice := nice stats;
           system := system stats;
           idle := idle stats;
           total_mem := total_mem stats;
           free_mem := free_mem stats;
           used_mem := used_mem stats;
           process_count := store_d (process_count stats) (vs !! 0%nat);
           rx_bytes := rx_bytes stats;
           tx_bytes := tx_bytes stats;
           rx_packets := rx_packets stats;
           tx_packets := tx_packets stats |}
      else if decide (key = cs "network_stats") then
        let vs := sscanf_numbers 4 value in
        {| user := user stats;
           nice := nice stats;
           system := system stats;
           idle := idle stats;
           total_mem := total_mem stats;
           free_mem := free_mem stats;
           used_mem := used_mem stats;
           process_count := process_count stats;
           rx_bytes := store_lu (rx_bytes stats) (vs !! 0%nat);
           tx_bytes := store_lu (tx_bytes stats) (vs !! 1%nat);
           rx_packets := store_lu (rx_packets stats) (vs !! 2%nat);
           tx_packets := store_lu (tx_packets stats) (vs !! 3%nat) |}
      else stats
  | _, _ => stats
  end.

(** [read_stats] applied to the lines [fgets] returns. *)
Definition read_stats (lines : list text) (stats : system_stats) : system_stats :=
  fold_left (fun s line => parse_line line s) lines stats.

(** [read_stats] applied to the proc file: [None] is the text of the file
    when [fopen] fails, and the result [None] is the call [exit(1)]. *)
Definition read_stats_file (proc_file : option text) (stats : system_stats)
    : option system_stats :=
  match proc_file with
  | None => None
  | Some fp => Some (read_stats (fgets_lines (length fp) fp) stats)
  end.

End Client_code.

(** *** Notions used to state the properties *)

(** The number a string of decimal digits denotes, read from the left
    after the digits that gave [acc]. *)
Fixpoint uint_val (d : Decimal.uint) (acc : Z) : Z :=
  match d with
  | Decimal.Nil => acc
  | Decimal.D0 d => uint_val d (10 * acc + 0)
  | Decimal.D1 d => uint_val d (10 * acc + 1)
  | Decimal.D2 d => uint_val d (10 * acc + 2)
  | Decimal.D3 d => uint_val d (10 * acc + 3)
  | Decimal.D4 d => uint_val d (10 * acc + 4)
  | Decimal.D5 d => uint_val d (10 * acc + 5)
  | Decimal.D6 d => uint_val d (10 * acc + 6)
  | Decimal.D7 d => uint_val d (10 * acc + 7)
  | Decimal.D8 d => uint_val d (10 * acc + 8)
  | Decimal.D9 d => uint_val d (10 * acc + 9)
  end.

(** Text that does not go on with a digit. *)
Definition no_digit_ahead (s : text) : Prop :=
  match s with
  | [] => True
  | c :: _ => digit_value c = None
  end.

(** A line that [fgets] returns whole: no line feed before the one that
    ends it, and fewer than 255 characters before that one. *)
Definition whole_line (line : text) : Prop :=
  ∃ body, line = body ++ [LF] ∧ Forall (fun c => c ≠ LF) body
          ∧ (length body < 255)%nat.

(** A structure whose fields are all zero. *)
Definition zero_stats : system_stats :=
  {| user := 0; nice := 0; system := 0; idle := 0;
     total_mem := 0; free_mem := 0; used_mem := 0;
     process_count := 0; rx_bytes := 0; tx_bytes := 0;
     rx_packets := 0; tx_packets := 0 |}.

(** The four keys [parse_line] compares with. *)
Definition parsed_keys : list text :=
  [cs "cpu_stats"; cs "memory_stats"; cs "process_count"; cs "network_stats"].

(** The key read off the line: the text before its first colon (the whole
    line when it has no colon). *)
Fixpoint text_before_first_colon (line : text) : text :=
  match line with
  | [] => []
  | c :: line' =>
      if decide (c = COLON) then [] else c :: text_before_first_colon line'
  end.

(** The key as [strtok] delimits it: the colons at the start of the line
    are skipped first. *)
Definition key_of (line : text) : text :=
  text_before_first_colon (skip_delims [COLON] line).

End Display.

(** A 64-bit architecture with 4 KiB pages, such as x86-64. *)
Definition lp64 : Arch := {| PAGE_SHIFT := 12; BITS_PER_LONG := 64 |}.

(** * Properties of the kernel module *)

Import Kernel.

(** ** The history ring buffer *)

Ltac mod60 :=
  unfold history_idx, HISTORY_SIZE in *;
  Z.to_euclidean_division_equations; lia.

Lemma history_idx_range hd i :
  0 ≤ hd < HISTORY_SIZE → 0 ≤ i < HISTORY_SIZE →
  0 ≤ history_idx hd i < HISTORY_SIZE.
Proof. intros. mod60. Qed.

Lemma history_idx_newest hd :
  0 ≤ hd < HISTORY_SIZE → history_idx (Z.rem (hd + 1) HISTORY_SIZE) 0 = hd.
Proof. intros. mod60. Qed.

Lemma history_idx_shift hd i :
  0 ≤ hd < HISTORY_SIZE → 0 ≤ i < HISTORY_SIZE - 1 →
  history_idx (Z.rem (hd + 1) HISTORY_SIZE) (i + 1) = history_idx hd i
  ∧ history_idx hd i ≠ hd.
Proof. intros. mod60. Qed.

Lemma aget_aset_eq {A} `{Inhabited A} (a : list A) i x :
  0 ≤ i < Z.of_nat (length a) → aget (aset a i x) i = x.
Proof. intros. unfold aget, aset. apply list_lookup_total_insert_eq. lia. Qed.

Lemma aget_aset_ne {A} `{Inhabited A} (a : list A) i j x :
  0 ≤ i → 0 ≤ j → i ≠ j → aget (aset a i x) j = aget a j.
Proof. intros. unfold aget, aset. apply list_lookup_total_insert_ne. lia. Qed.

Lemma history_append_wf h e : history_wf h → history_wf (history_append h e).
Proof.
  intros (Hc & Hm & Hh). unfold history_wf, history_append, aset; simpl.
  rewrite !length_insert. repeat split; try assumption; mod60.
Qed.

Lemma history_appends_wf l h :
  history_wf h → history_wf (fold_left history_append l h).
Proof.
  revert h. induction l as [|e l IH]; intros h Hwf; simpl; [done|].
  by apply IH, history_append_wf.
Qed.

Lemma history_rows_length h : length (history_rows h) = Z.to_nat HISTORY_SIZE.
Proof. unfold history_rows. by rewrite length_fmap, length_seqZ. Qed.

Lemma history_rows_lookup h (i : nat) :
  (i < Z.to_nat HISTORY_SIZE)%nat →
  history_rows h !! i = Some (history_row h (Z.of_nat i)).
Proof.
  intros Hi. unfold history_rows. rewrite list_lookup_fmap.
  rewrite lookup_seqZ_lt by lia. simpl. do 2 f_equal.
Qed.

Lemma history_entries_length h :
  length (history_entries h) = Z.to_nat HISTORY_SIZE.
Proof. unfold history_entries. by rewrite length_fmap, history_rows_length. Qed.

Lemma history_entries_lookup h (i : nat) :
  (i < Z.to_nat HISTORY_SIZE)%nat →
  history_entries h !! i =
    Some (aget (cpu_usage h) (history_idx (head h) (Z.of_nat i)),
          aget (mem_usage h) (history_idx (head h) (Z.of_nat i))).
Proof.
  intros Hi. unfold history_entries.
  by rewrite list_lookup_fmap, history_rows_lookup.
Qed.

(** One append puts the new sample in front of the snapshot and drops the
    oldest one. *)
Lemma history_entries_append h e :
  history_wf h →
  history_entries (history_append h e)
  = e :: take (Z.to_nat HISTORY_SIZE - 1) (history_entries h).
Proof.
  intros (Hc & Hm & Hh). apply list_eq. intros i.
  destruct (decide (i < Z.to_nat HISTORY_SIZE)%nat) as [Hi|Hi].
  - rewrite history_entries_lookup by done. destruct i as [|i].
    + cbn [history_append head cpu_usage mem_usage Z.of_nat].
      rewrite history_idx_newest by done.
      rewrite !aget_aset_eq by (unfold HISTORY_SIZE in *; lia).
      by destruct e.
    + change ((e :: ?l) !! S i) with (l !! i).
      cbn [history_append head cpu_usage mem_usage].
      rewrite lookup_take_lt by lia.
      rewrite history_entries_lookup by lia.
      destruct (history_idx_shift (head h) (Z.of_nat i)) as [Hs Hne];
        [done | unfold HISTORY_SIZE in *; lia |].
      replace (Z.of_nat (S i)) with (Z.of_nat i + 1) by lia.
      rewrite Hs.
      assert (0 ≤ history_idx (head h) (Z.of_nat i) < HISTORY_SIZE)
        by (apply history_idx_range; unfold HISTORY_SIZE in *; lia).
      by rewrite !aget_aset_ne by lia.
  - rewrite !lookup_ge_None_2; [done | |].
    + cbn [length]. rewrite length_take, history_entries_length. lia.
    + rewrite history_entries_length. lia.
Qed.

(** After any number of appends the snapshot is the appended samples,
    newest first, followed by what the buffer held before, cut at the
    capacity. *)
Lemma history_entries_appends l h :
  history_wf h →
  history_entries (fold_left history_append l h)
  = take (Z.to_nat HISTORY_SIZE) (reverse l ++ history_entries h).
Proof.
  intros Hwf. induction l as [|e l IH] using rev_ind.
  - rewrite reverse_nil. cbn [fold_left app]. rewrite take_ge; [done|].
    rewrite history_entries_length. lia.
  - rewrite fold_left_app; simpl.
    rewrite history_entries_append by by apply history_appends_wf.
    rewrite IH, reverse_app, reverse_singleton. cbn [app].
    rewrite take_take. change (Z.to_nat HISTORY_SIZE) with 60%nat.
    done.
Qed.

Lemma init_history_wf : history_wf (stats_history init_state).
Proof. repeat split; simpl; lia. Qed.

Section Sampling.
Context `{Arch}.

(** While the flag is 1 every iteration appends its sample and keeps the
    flag. *)
Lemma monitor_function_enabled envs st :
  monitoring st = 1 →
  stats_history (monitor_function envs st)
    = fold_left history_append (sample_of <$> envs) (stats_history st)
  ∧ monitoring (monitor_function envs st) = 1.
Proof.
  revert st. induction envs as [|env envs IH]; intros st Hm; [done|].
  cbn [monitor_function fold_left fmap list_fmap].
  assert (Hstep : monitor_iteration env st =
    {| stats_history := history_append (stats_history st) (sample_of env);
       monitoring := monitoring st;
       top_processes := collect_process_stats (tasks env) (top_processes st) |}).
  { unfold monitor_iteration. by rewrite Hm. }
  rewrite Hstep. by apply IH.
Qed.

(** While the flag is not 1 an iteration does nothing. *)
Lemma monitor_function_disabled envs st :
  monitoring st ≠ 1 → monitor_function envs st = st.
Proof.
  intros Hm. induction envs as [|env envs IH]; [done|].
  cbn [monitor_function fold_left]. unfold monitor_iteration at 2.
  destruct (Z.eqb_spec (monitoring st) 1); [done|]. apply IH.
Qed.

End Sampling.

Section History_claims.
Context `{Arch}.



(** C6.  With the flag at 0, any number of loop iterations leaves the whole
    module state as it was: the ring buffer's head and slots and the
    process table.  Once "enable" has been written, the next iteration
    stores its sample in the slot at [head], leaves every other slot alone
    and advances [head] by one, so the snapshot gains exactly that
    sample. *)
Theorem disabled_ticks_frame (st : kstate) (envs : list raw_metrics)
    (env : raw_metrics) :
  monitoring st = 0 →
  history_wf (stats_history st) →
  let paused := monitor_function envs st in
  let resumed :=
    monitor_iteration env (snd (control_write (Some <$> cs "enable") paused)) in
  let h := stats_history st in
  let h' := stats_history resumed in
  paused = st
  ∧ head h' = (head h + 1) mod HISTORY_SIZE
  ∧ aget (cpu_usage h') (head h) = u64 (jiffies_64 env)
  ∧ aget (mem_usage h') (head h) = u64 (mem_available env)
  ∧ (∀ j, 0 ≤ j → j ≠ head h →
       aget (cpu_usage h') j = aget (cpu_usage h) j ∧
       aget (mem_usage h') j = aget (mem_usage h) j)
  ∧ history_entries h'
      = sample_of env :: take (Z.to_nat HISTORY_SIZE - 1) (history_entries h).
Proof.
  intros Hm Hwf paused resumed h h'.
  assert (Hp : paused = st) by (apply monitor_function_disabled; lia).
  assert (Hh' : h' = history_append h (sample_of env)).
  { unfold h', resumed. rewrite Hp. reflexivity. }
  destruct Hwf as (Hc & Hmu & Hh). fold h in Hc, Hmu, Hh.
  split; [done|]. rewrite Hh'. cbn [history_append head cpu_usage mem_usage].
  split; [rewrite Z.rem_mod_nonneg; unfold HISTORY_SIZE in *; lia|].
  rewrite !aget_aset_eq by (unfold HISTORY_SIZE in *; lia).
  split; [done|]. split; [done|]. split.
  - intros j Hj Hne. by rewrite !aget_aset_ne by lia.
  - by apply history_entries_append.
Qed.

End History_claims.

(** ** The process table *)

Section Process_table.
Context `{Arch}.

Lemma collect_loop_length ts : ∀ i tp, length (collect_loop ts i tp) = length tp.
Proof.
  induction ts as [|task ts IH]; intros i tp; simpl; [done|].
  destruct (MAX_PROCESSES <=? i); [done|].
  rewrite IH. unfold aset. by rewrite length_insert.
Qed.

(** The loop started at slot [i] keeps the slots before [i], fills the next
    slots with the tasks it visits, at most up to the capacity, and leaves
    the slots behind them as they were. *)
Lemma collect_loop_spec ts : ∀ (i : nat) tp,
  length tp = Z.to_nat MAX_PROCESSES →
  (i ≤ Z.to_nat MAX_PROCESSES)%nat →
  collect_loop ts (Z.of_nat i) tp
  = take i tp
    ++ (stats_of_task <$> take (Z.to_nat MAX_PROCESSES - i) ts)
    ++ drop (i + Nat.min (length ts) (Z.to_nat MAX_PROCESSES - i)) tp.
Proof.
  induction ts as [|task ts IH]; intros i tp Hlen Hi.
  - cbn [collect_loop length]. rewrite take_nil, fmap_nil, Nat.min_0_l, Nat.add_0_r.
    cbn [app]. by rewrite take_drop.
  - cbn [collect_loop]. destruct (Z.leb_spec MAX_PROCESSES (Z.of_nat i)) as [Hge|Hlt].
    + assert (i = Z.to_nat MAX_PROCESSES) as -> by lia.
      rewrite Nat.sub_diag, take_0, fmap_nil, Nat.min_0_r, Nat.add_0_r.
      cbn [app]. by rewrite take_drop.
    + assert (Hi' : (i < length tp)%nat) by lia.
      replace (Z.of_nat i + 1) with (Z.of_nat (S i)) by lia.
      rewrite IH by (unfold aset; rewrite ?length_insert; lia).
      unfold aset. rewrite Nat2Z.id.
      rewrite (take_S_r _ _ (stats_of_task task))
        by by apply list_lookup_insert_eq.
      rewrite take_insert_ge by lia.
      rewrite drop_insert_lt by lia.
      replace (Z.to_nat MAX_PROCESSES - i)%nat
        with (S (Z.to_nat MAX_PROCESSES - S i)) by lia.
      cbn [take length fmap list_fmap]. rewrite <- !app_assoc. cbn [app].
      replace (i + Nat.min (S (length ts)) (S (Z.to_nat MAX_PROCESSES - S i)))%nat
        with (S i + Nat.min (length ts) (Z.to_nat MAX_PROCESSES - S i))%nat by lia.
      done.
Qed.

(** A refresh with fewer tasks than slots rewrites one slot per task and
    leaves the slots behind them as they were. *)
Lemma collect_process_stats_short ts tp :
  length tp = Z.to_nat MAX_PROCESSES →
  (length ts ≤ Z.to_nat MAX_PROCESSES)%nat →
  collect_process_stats ts tp = (stats_of_task <$> ts) ++ drop (length ts) tp.
Proof.
  intros Hlen Hts. unfold collect_process_stats.
  change 0 with (Z.of_nat 0).
  rewrite (collect_loop_spec ts 0 tp Hlen) by lia.
  rewrite take_0, Nat.sub_0_r, take_ge by lia. cbn [app].
  do 2 f_equal. lia.
Qed.


Lemma top_rows_le tp : (length (top_rows tp) ≤ length tp)%nat.
Proof.
  induction tp as [|p tp IH]; simpl; [done|].
  destruct (pid p =? 0); simpl; lia.
Qed.


End Process_table.

(** C2.  The table after a refresh from two tasks is refreshed again from
    one task (the second task has exited).  Slot 1, the slot behind the last
    enumerated task, keeps pid 2, and the renderer prints two rows although
    one task was enumerated. *)
Theorem stale_slot_after_smaller_refresh :
  let before :=
    collect_process_stats (H := lp64) [user_task 1; user_task 2]
      (top_processes init_state) in
  let after := collect_process_stats (H := lp64) [user_task 1] before in
  pid <$> after !! 1%nat = Some 2
  ∧ length (top_rows (take (Z.to_nat MAX_PROCESSES) after)) = 2%nat.
Proof. vm_compute. done. Qed.

(** ** The live sections: [cpu_stats] and [memory_stats] *)

Lemma cpu_sums_fold cpus : ∀ a b c d,
  fold_left
    (fun '(user, nice, system, idle) kcs =>
       (u64 (user + aget (cpustat kcs) (vtime_state_value VTIME_USER)),
        u64 (nice + aget (cpustat kcs) (cpu_usage_stat_value CPUTIME_NICE)),
        u64 (system + aget (cpustat kcs) (vtime_state_value VTIME_SYS)),
        u64 (idle + aget (cpustat kcs) (vtime_state_value VTIME_IDLE))))
    cpus (a, b, c, d)
  = (fold_left (fun acc kcs => u64 (acc + aget (cpustat kcs) 3)) cpus a,
     fold_left (fun acc kcs => u64 (acc + aget (cpustat kcs) 1)) cpus b,
     fold_left (fun acc kcs => u64 (acc + aget (cpustat kcs) 2)) cpus c,
     fold_left (fun acc kcs => u64 (acc + aget (cpustat kcs) 1)) cpus d).
Proof.
  induction cpus as [|kcs cpus IH]; intros a b c d; [done|].
  cbn [fold_left]. apply IH.
Qed.

(** The slots the loop of [get_cpu_stats] sums: the enumerators of
    [enum vtime_state] it uses for user and idle select the softirq and the
    nice counter. *)
Lemma cpu_sums_counters cpus :
  cpu_sums cpus
  = (cpu_counter_sum CPUTIME_SOFTIRQ cpus, cpu_counter_sum CPUTIME_NICE cpus,
     cpu_counter_sum CPUTIME_SYSTEM cpus, cpu_counter_sum CPUTIME_NICE cpus).
Proof. apply cpu_sums_fold. Qed.

(** C4.  One CPU with user = 100, nice = 2, system = 30, softirq = 4,
    irq = 5, idle = 600 (and iowait, steal, guest, guest_nice = 7, 8, 9,
    10).  The report line is [cpu_stats:4,2,30,2]: the first field is the
    softirq counter and the last the nice counter, where the line of the
    user, nice, system and idle sums is [cpu_stats:100,2,30,600]. *)
Theorem cpu_stats_wrong_slots :
  let kcs := {| cpustat := [100; 2; 30; 4; 5; 600; 7; 8; 9; 10] |} in
  let env := {| tasks := []; possible_cpus := [kcs];
                meminfo := {| totalram := 0; freeram := 0 |};
                netdevs := []; jiffies_64 := 0; mem_available := 0 |} in
  get_cpu_stats [] env = cs "cpu_stats:4,2,30,2" ++ [LF]
  ∧ cpu_stats_line
      (cpu_counter_sum CPUTIME_USER [kcs]) (cpu_counter_sum CPUTIME_NICE [kcs])
      (cpu_counter_sum CPUTIME_SYSTEM [kcs]) (cpu_counter_sum CPUTIME_IDLE [kcs])
    = cs "cpu_stats:100,2,30,600" ++ [LF].
Proof. split; vm_compute; reflexivity. Qed.

Section Memory.
Context `{Arch}.





End Memory.

(** ** The control channel *)

Lemma nat_of_ascii_inj a b : nat_of_ascii a = nat_of_ascii b → a = b.
Proof.
  intros Hab. rewrite <- (ascii_nat_embedding a), <- (ascii_nat_embedding b).
  by rewrite Hab.
Qed.

(** On a NUL-terminated buffer, [strncmp] over the length of a pattern
    without NUL returns 0 exactly when the buffer starts with the
    pattern. *)
Lemma strncmp_prefix p : ∀ s,
  Forall (fun c => c ≠ NUL) p →
  strncmp (s ++ [NUL]) p (length p) = 0 ↔ p `prefix_of` s.
Proof.
  induction p as [|c p IH]; intros s Hp.
  - split; [intros _; apply prefix_nil | done].
  - apply Forall_cons in Hp as [Hc Hp]. cbn [strncmp length hd tl].
    destruct s as [|a s]; cbn [app hd tl].
    + destruct (decide (NUL = c)) as [E|Hne]; [by destruct Hc|].
      split.
      * intros Hz. exfalso. apply Hc, nat_of_ascii_inj.
        change (nat_of_ascii NUL) with 0%nat in *. lia.
      * intros Hpre. by apply prefix_nil_not in Hpre.
    + destruct (decide (a = c)) as [->|Hne].
      * destruct (decide (c = NUL)); [done|].
        rewrite IH by done. split; [apply prefix_cons | apply prefix_cons_inv_2].
      * split.
        -- intros Hz. exfalso. apply Hne, nat_of_ascii_inj. lia.
        -- intros Hpre. by apply prefix_cons_inv_1 in Hpre.
Qed.

Lemma prefix_of_take {A} (p s : list A) n :
  (length p ≤ n)%nat → p `prefix_of` take n s ↔ p `prefix_of` s.
Proof.
  intros Hn. split.
  - intros Hp. etrans; [exact Hp|]. apply prefix_take.
  - intros [k ->]. rewrite take_app_ge by done. by eexists.
Qed.

Lemma copy_from_user_readable (txt : text) n :
  copy_from_user (Some <$> txt) n = Some (take n txt).
Proof.
  unfold copy_from_user. rewrite <- fmap_take. by apply mapM_fmap_Some.
Qed.

(** What a write whose bytes could be copied does with the command. *)
Lemma control_write_copied buffer bytes st :
  copy_from_user buffer (Z.to_nat (Z.min (Z.of_nat (length buffer)) (32 - 1)))
    = Some bytes →
  control_write buffer st
  = (Z.of_nat (length buffer),
     if decide (cs "enable" `prefix_of` bytes) then set_monitoring 1 st
     else if decide (cs "disable" `prefix_of` bytes) then set_monitoring 0 st
     else st).
Proof.
  intros Hcopy. unfold control_write. rewrite Hcopy.
  pose proof (strncmp_prefix (cs "enable") bytes) as He.
  pose proof (strncmp_prefix (cs "disable") bytes) as Hd.
  change (length (cs "enable")) with 6%nat in He.
  change (length (cs "disable")) with 7%nat in Hd.
  destruct (Z.eqb_spec (strncmp (bytes ++ [NUL]) (cs "enable") 6) 0) as [E|E].
  - rewrite decide_True; [done|]. apply He; [|done].
    repeat constructor; discriminate.
  - rewrite decide_False by (intros Hp; apply E, He;
      [repeat constructor; discriminate | done]).
    destruct (Z.eqb_spec (strncmp (bytes ++ [NUL]) (cs "disable") 7) 0) as [D|D].
    + rewrite decide_True; [done|]. apply Hd; [|done].
      repeat constructor; discriminate.
    + rewrite decide_False; [done|]. intros Hp. apply D, Hd; [|done].
      repeat constructor; discriminate.
Qed.


(** ** The report *)

Ltac dec_char_here :=
  unfold dec_char; apply (bool_decide_unpack _); vm_compute; exact I.

Lemma uint_chars d : Forall dec_char (cs (NilEmpty.string_of_uint d)).
Proof.
  induction d; cbn [NilEmpty.string_of_uint cs list_ascii_of_string];
    constructor; (assumption || dec_char_here).
Qed.

Lemma dec_chars z : Forall dec_char (dec z).
Proof.
  unfold dec. destruct z as [|p|p]; cbn [Z.to_int NilZero.string_of_int].
  - repeat constructor; dec_char_here.
  - unfold NilZero.string_of_uint.
    destruct (Pos.to_uint p); try apply uint_chars.
    repeat constructor; dec_char_here.
  - cbn [cs list_ascii_of_string]. constructor; [dec_char_here|].
    unfold NilZero.string_of_uint.
    destruct (Pos.to_uint p); try apply uint_chars.
    repeat constructor; dec_char_here.
Qed.

(** A decimal rendering is not empty. *)
Lemma dec_first z : ∃ c rest, dec z = c :: rest ∧ dec_char c.
Proof.
  pose proof (dec_chars z) as Hz.
  assert (Hne : dec z ≠ []).
  { unfold dec. destruct z as [|p|p]; cbn [Z.to_int NilZero.string_of_int];
      [done | | done].
    unfold NilZero.string_of_uint.
    pose proof (Unsigned.to_uint_nonnil p).
    by destruct (Pos.to_uint p). }
  destruct (dec z) as [|c rest]; [done|].
  apply Forall_cons in Hz as [Hc _]. by exists c, rest.
Qed.

Lemma dec_char_plain c : dec_char c → c ≠ COLON ∧ c ≠ LF.
Proof.
  unfold dec_char. intros Hc.
  split; intros ->; apply (bool_decide_pack _) in Hc; vm_compute in Hc;
    destruct Hc.
Qed.

Lemma dec_plain z : plain (dec z).
Proof. eapply Forall_impl; [apply dec_chars|]. apply dec_char_plain. Qed.

Lemma comma_plain : plain [COMMA].
Proof. repeat constructor; discriminate. Qed.

Create HintDb plain.
#[local] Hint Resolve dec_plain comma_plain : plain.

Lemma plain_app s1 s2 : plain s1 → plain s2 → plain (s1 ++ s2).
Proof. unfold plain. intros. by apply Forall_app. Qed.

#[local] Hint Resolve plain_app : plain.

Lemma printf_loop {A} (f : A → text) (l : list A) : ∀ m : seq_file,
  fold_left (fun m r => seq_printf m (f r)) l m = m ++ concat (f <$> l).
Proof.
  induction l as [|r l IH]; intros m; cbn [fold_left fmap list_fmap concat].
  - by rewrite app_nil_r.
  - rewrite IH. unfold seq_printf. by rewrite <- app_assoc.
Qed.

Lemma history_line_no_colon r : Forall (fun c => c ≠ COLON) (history_line r).
Proof.
  destruct r as [[i cpu] mem]. unfold history_line.
  repeat apply Forall_app_2;
    try (eapply Forall_impl; [apply dec_plain|]; by intros ? [? _]);
    repeat constructor; discriminate.
Qed.

Section Report.
Context `{Arch}.

(** C8.  Rendering returns 0 for every input and every module state, the
    initial one included, and appends to the [seq_file] the seven sections
    in order: the lines labelled [cpu_stats:], [memory_stats:],
    [process_count:], [io_stats:] and [network_stats:], whose values hold
    neither a colon nor a line feed, the line [history:] followed by the 60
    history rows, which hold no colon, an empty line, and the line
    [top_processes:] followed by the table rows. *)
Theorem report_sections (m : seq_file) (env : raw_metrics) (st : kstate) :
  ∃ b1 b2 b3 b4 b5 hist procs,
    system_stats_show m env st
    = (0, m ++ cs "cpu_stats:" ++ b1 ++ [LF]
            ++ cs "memory_stats:" ++ b2 ++ [LF]
            ++ cs "process_count:" ++ b3 ++ [LF]
            ++ cs "io_stats:" ++ b4 ++ [LF]
            ++ cs "network_stats:" ++ b5 ++ [LF]
            ++ cs "history:" ++ [LF] ++ hist
            ++ [LF] ++ cs "top_processes:" ++ [LF] ++ procs)
    ∧ plain b1 ∧ plain b2 ∧ plain b3 ∧ plain b4 ∧ plain b5
    ∧ hist = concat (history_line <$> history_rows (stats_history st))
    ∧ length (history_rows (stats_history st)) = Z.to_nat HISTORY_SIZE
    ∧ Forall (fun c => c ≠ COLON) hist
    ∧ procs = concat (process_line <$>
                top_rows (take (Z.to_nat MAX_PROCESSES) (top_processes st))).
Proof.
  unfold system_stats_show, get_cpu_stats, get_memory_stats, get_process_count,
    get_io_stats, get_network_stats, show_history, show_top_processes.
  destruct (cpu_sums (possible_cpus env)) as [[[user nice] system] idle].
  destruct (memory_kb (meminfo env)) as [[total_kb free_kb] used_kb].
  destruct (io_sums (tasks env)) as [read_bytes write_bytes].
  destruct (net_sums (netdevs env)) as [[[rxb txb] rxp] txp].
  rewrite !printf_loop. unfold seq_printf, seq_puts.
  exists (dec user ++ [COMMA] ++ dec nice ++ [COMMA] ++ dec system
            ++ [COMMA] ++ dec idle),
         (dec total_kb ++ [COMMA] ++ dec free_kb ++ [COMMA] ++ dec used_kb),
         (dec (fold_left (fun count _ => count + 1) (tasks env) 0)),
         (dec read_bytes ++ [COMMA] ++ dec write_bytes),
         (dec rxb ++ [COMMA] ++ dec txb ++ [COMMA] ++ dec rxp ++ [COMMA] ++ dec txp).
  eexists _, _. split; [|repeat split; auto 10 with plain].
  - unfold cpu_stats_line, memory_stats_line, process_count_line, io_stats_line,
      network_stats_line, history_header, top_processes_header.
    f_equal. rewrite <- !app_assoc. reflexivity.
  - apply Forall_concat, Forall_fmap, Forall_forall.
    intros r _. apply history_line_no_colon.
Qed.

End Report.

(** * Properties of the display client *)

Import Display.

Lemma token_end_colon line :
  fst (token_end [COLON] line) = text_before_first_colon line.
Proof.
  induction line as [|c line IH]; [done|].
  cbn [token_end text_before_first_colon].
  destruct (decide (c = COLON)) as [->|Hne].
  - by rewrite bool_decide_eq_true_2 by apply list_elem_of_here.
  - rewrite bool_decide_eq_false_2
      by (intros Hin; by apply list_elem_of_singleton in Hin).
    destruct (token_end [COLON] line) as [tok rest]. simpl in *. by rewrite IH.
Qed.

(** The key [parse_line] obtains from [strtok] is [key_of], when there is
    one. *)
Lemma strtok_key line key save :
  strtok line [COLON] = (Some key, save) → key = key_of line.
Proof.
  unfold strtok, key_of. rewrite <- token_end_colon.
  destruct (skip_delims [COLON] line) as [|c s1]; [done|].
  destruct (token_end [COLON] (c :: s1)) as [tok rest]. by intros [= <- _].
Qed.

Lemma skip_delims_head line :
  hd_error line ≠ Some COLON → skip_delims [COLON] line = line.
Proof.
  destruct line as [|c line]; [done|]. simpl. intros Hc.
  rewrite bool_decide_eq_false_2; [done|].
  intros Hin. apply list_elem_of_singleton in Hin. congruence.
Qed.

(** A line that starts with a decimal number has a key that none of the
    comparisons of [parse_line] matches. *)
Lemma key_of_number z rest : key_of (dec z ++ rest) ∉ parsed_keys.
Proof.
  destruct (dec_first z) as (c & tl & -> & Hc).
  destruct (dec_char_plain c Hc) as [Hcolon _].
  unfold key_of. rewrite skip_delims_head by (simpl; congruence).
  cbn [app text_before_first_colon]. rewrite decide_False by done.
  intros Hin. unfold parsed_keys in Hin.
  repeat (apply elem_of_cons in Hin as [Hin|Hin];
          [injection Hin as -> _; apply (bool_decide_pack _) in Hc;
           vm_compute in Hc; destruct Hc|]).
  by apply elem_of_nil in Hin.
Qed.

Section Client_claims.
Context `{Arch}.

Lemma parse_line_other_key line stats :
  key_of line ∉ parsed_keys → parse_line line stats = stats.
Proof.
  intros Hkey. unfold parse_line.
  destruct (strtok line [COLON]) as [[key|] save] eqn:Hk;
    destruct (strtok save [LF]) as [[value|] save']; try done.
  apply strtok_key in Hk as ->. unfold parsed_keys in Hkey.
  rewrite !not_elem_of_cons in Hkey.
  destruct Hkey as (? & ? & ? & ? & _).
  by rewrite !decide_False by done.
Qed.

End Client_claims.

(** C10 as stated fails on a line that starts with a colon: the text before
    its first colon is empty, hence none of the four keys, but [strtok]
    skips the colon, the key is [cpu_stats] and the four CPU fields are
    overwritten. *)
Lemma parse_line_leading_colon_counterexample :
  let line := COLON :: cs "cpu_stats:1,2,3,4" ++ [LF] in
  (text_before_first_colon line ∉ parsed_keys)
  ∧ (parse_line (H := lp64) line zero_stats ≠ zero_stats)
  ∧ user (parse_line (H := lp64) line zero_stats) = 1.
Proof.
  split; [apply (bool_decide_eq_false_1 _); reflexivity|].
  split; [|reflexivity].
  intros Heq. apply (f_equal user) in Heq. vm_compute in Heq. discriminate.
Qed.

(** * The theorems at concrete inputs *)



(** Five iterations while disabled, then "enable" and one iteration. *)
Lemma disabled_ticks_frame_witness :
  let st := set_monitoring 0 init_state in
  let ticks := replicate 5 (reading 7 1000) in
  monitor_function (H := lp64) ticks st = st
  ∧ head (stats_history
      (monitor_iteration (H := lp64) (reading 8 2000)
         (snd (control_write (Some <$> cs "enable")
                 (monitor_function (H := lp64) ticks st)))))
    = (0 + 1) mod HISTORY_SIZE.
Proof.
  intros st ticks.
  destruct (disabled_ticks_frame (H := lp64) st ticks (reading 8 2000))
    as (Hp & Hh & _).
  - reflexivity.
  - repeat split; simpl; lia.
  - split; [exact Hp | exact Hh].
Defined.



(** * Further properties of the kernel module *)

Section Run_time_facts.
Context `{Arch}.

Lemma monitor_iteration_inv env st :
  module_inv st → module_inv (monitor_iteration env st).
Proof.
  intros (Hh & Ht & Hm). unfold monitor_iteration.
  destruct (monitoring st =? 1); [|done].
  split; [|split]; cbn [stats_history top_processes monitoring].
  - by apply history_append_wf.
  - unfold collect_process_stats. by rewrite collect_loop_length.
  - done.
Qed.

(** A control write changes nothing but the flag, and sets it to 0 or 1 if
    it changes it. *)
Lemma control_write_frame buffer st :
  let st' := snd (control_write buffer st) in
  stats_history st' = stats_history st
  ∧ top_processes st' = top_processes st
  ∧ (monitoring st' = monitoring st ∨ monitoring st' = 0 ∨ monitoring st' = 1).
Proof.
  unfold control_write.
  destruct (copy_from_user _ _); [|by auto].
  destruct (_ =? 0); [by auto|]. destruct (_ =? 0); by auto.
Qed.

Lemma control_write_inv buffer st :
  module_inv st → module_inv (snd (control_write buffer st)).
Proof.
  intros (Hh & Ht & Hm).
  destruct (control_write_frame buffer st) as (Eh & Et & Em).
  unfold module_inv. rewrite Eh, Et. repeat split; try apply Hh; [done|].
  destruct Em as [->|[->| ->]]; auto.
Qed.

Lemma init_state_inv : module_inv init_state.
Proof. repeat split; simpl; auto; lia. Qed.

Lemma run_inv evs : ∀ st, module_inv st → module_inv (run evs st).
Proof.
  induction evs as [|ev evs IH]; intros st Hst; [done|].
  cbn [run fold_left]. apply IH. destruct ev; simpl.
  - by apply monitor_iteration_inv.
  - by apply control_write_inv.
Qed.

(** X1.  Whatever sequence of loop iterations and control writes follows
    the initialisation, the ring buffer keeps its two 60-slot arrays and a
    head inside them, the table keeps its 50 slots and the flag is 0 or 1;
    every slot index [show_history] computes lies inside the arrays. *)
Theorem reachable_state_invariant (evs : list event) :
  let st := run evs init_state in
  module_inv st
  ∧ ∀ i, 0 ≤ i < HISTORY_SIZE →
      0 ≤ history_idx (head (stats_history st)) i
        < Z.of_nat (length (cpu_usage (stats_history st)))
      ∧ history_idx (head (stats_history st)) i
        < Z.of_nat (length (mem_usage (stats_history st))).
Proof.
  intros st. assert (Hinv : module_inv st) by apply run_inv, init_state_inv.
  split; [done|]. intros i Hi.
  destruct Hinv as ((Hc & Hm & Hh) & _).
  pose proof (history_idx_range _ i Hh Hi). rewrite Hc, Hm.
  unfold HISTORY_SIZE in *. lia.
Qed.

End Run_time_facts.

(** ** More on the ring buffer *)

Lemma history_appends_head l : ∀ h,
  0 ≤ head h < HISTORY_SIZE →
  head (fold_left history_append l h)
  = (head h + Z.of_nat (length l)) mod HISTORY_SIZE.
Proof.
  induction l as [|e l IH]; intros h Hh.
  - cbn [fold_left length]. rewrite Z.add_0_r, Z.mod_small; [done|].
    unfold HISTORY_SIZE in *. lia.
  - cbn [fold_left length]. rewrite IH.
    + cbn [history_append head]. unfold HISTORY_SIZE in *.
      rewrite Z.rem_mod_nonneg by lia.
      rewrite Zplus_mod_idemp_l. f_equal. lia.
    + cbn [history_append head]. mod60.
Qed.

Lemma init_history_entries :
  history_entries (stats_history init_state)
  = replicate (Z.to_nat HISTORY_SIZE) (0, 0).
Proof. reflexivity. Qed.

Section Ring_buffer_facts.
Context `{Arch}.

(** X2.  With sampling enabled, K loop iterations advance the head by K
    modulo 60; 60 iterations bring it back to where it was. *)
Theorem head_after_iterations (st : kstate) (envs : list raw_metrics) :
  history_wf (stats_history st) →
  monitoring st = 1 →
  head (stats_history (monitor_function envs st))
  = (head (stats_history st) + Z.of_nat (length envs)) mod HISTORY_SIZE
  ∧ (length envs = Z.to_nat HISTORY_SIZE →
     head (stats_history (monitor_function envs st)) = head (stats_history st)).
Proof.
  intros (_ & _ & Hh) Hm.
  destruct (monitor_function_enabled envs st Hm) as [-> _].
  rewrite history_appends_head, length_fmap by done.
  split; [done|]. intros ->. unfold HISTORY_SIZE in *.
  Z.to_euclidean_division_equations; lia.
Qed.

(** X3.  Fewer than 60 iterations after initialisation: the snapshot lists
    the samples taken, newest first, and fills the remaining rows, up to
    60, with the pair (0, 0) of the slots never written. *)
Theorem snapshot_before_first_wrap (envs : list raw_metrics) :
  (length envs ≤ Z.to_nat HISTORY_SIZE)%nat →
  history_entries (stats_history (monitor_function envs init_state))
  = reverse (sample_of <$> envs)
    ++ replicate (Z.to_nat HISTORY_SIZE - length envs) (0, 0).
Proof.
  intros Hlen.
  destruct (monitor_function_enabled envs init_state eq_refl) as [-> _].
  rewrite history_entries_appends by apply init_history_wf.
  rewrite init_history_entries.
  rewrite take_app_ge by (rewrite length_reverse, length_fmap; lia).
  rewrite length_reverse, length_fmap, take_replicate.
  do 2 f_equal. lia.
Qed.

End Ring_buffer_facts.

Lemma head_after_iterations_witness :
  head (stats_history
    (monitor_function (H := lp64) (replicate 60 (reading 5 7)) init_state)) = 0.
Proof.
  apply (proj2 (head_after_iterations (H := lp64) init_state
                  (replicate 60 (reading 5 7))
                  ltac:(repeat split; simpl; lia) eq_refl)).
  reflexivity.
Defined.

Lemma snapshot_before_first_wrap_witness :
  history_entries (stats_history
    (monitor_function (H := lp64) [reading 100 1000; reading 101 2000] init_state))
  = reverse (sample_of <$> [reading 100 1000; reading 101 2000])
    ++ replicate (Z.to_nat HISTORY_SIZE - 2) (0, 0).
Proof.
  apply (snapshot_before_first_wrap (H := lp64)
           [reading 100 1000; reading 101 2000]).
  vm_compute. lia.
Defined.

(** ** More on the process table *)

Lemma top_rows_app_stop a b :
  Forall (fun p => pid p ≠ 0) a →
  (pid <$> b !! 0%nat = Some 0 ∨ b = []) →
  top_rows (a ++ b) = a.
Proof.
  intros Ha Hb. induction Ha as [|p a Hp _ IH]; cbn [app top_rows].
  - destruct Hb as [Hb| ->]; [|done].
    destruct b as [|q b]; [done|]. cbn in Hb. injection Hb as Hq.
    cbn [top_rows]. by rewrite Hq.
  - destruct (Z.eqb_spec (pid p) 0); [done|]. by rewrite IH.
Qed.

Section Process_table_facts.
Context `{Arch}.

(** X4.  A refresh from at most 50 tasks stores their records in the first
    slots, in enumeration order, and leaves every slot behind them as it
    was before the refresh. *)
Theorem refresh_keeps_later_slots (ts : list task_struct)
    (tp : list process_stats) :
  length tp = Z.to_nat MAX_PROCESSES →
  (length ts ≤ Z.to_nat MAX_PROCESSES)%nat →
  let tp' := collect_process_stats ts tp in
  (∀ i task, ts !! i = Some task → tp' !! i = Some (stats_of_task task))
  ∧ (∀ i, (length ts ≤ i)%nat → tp' !! i = tp !! i).
Proof.
  intros Hlen Hts tp'. unfold tp'.
  rewrite collect_process_stats_short by done. split.
  - intros i task Hi.
    rewrite lookup_app_l by (rewrite length_fmap; by eapply lookup_lt_Some).
    by rewrite list_lookup_fmap, Hi.
  - intros i Hi. rewrite lookup_app_r by (rewrite length_fmap; lia).
    rewrite length_fmap, lookup_drop. f_equal. lia.
Qed.

(** X5.  When the slot behind the enumerated tasks holds pid 0 (or there is
    no such slot), as after initialisation or as long as the number of
    tasks has not gone down, the report lists exactly the enumerated tasks,
    in enumeration order. *)
Theorem render_after_refresh (ts : list task_struct) (tp : list process_stats) :
  length tp = Z.to_nat MAX_PROCESSES →
  (length ts ≤ Z.to_nat MAX_PROCESSES)%nat →
  Forall (fun task => task_pid task ≠ 0) ts →
  ((length ts < Z.to_nat MAX_PROCESSES)%nat →
   pid <$> tp !! length ts = Some 0) →
  top_rows (take (Z.to_nat MAX_PROCESSES) (collect_process_stats ts tp))
  = stats_of_task <$> ts.
Proof.
  intros Hlen Hts Hpid Hstop.
  rewrite take_ge
    by (unfold collect_process_stats; rewrite collect_loop_length; lia).
  rewrite collect_process_stats_short by done.
  apply top_rows_app_stop.
  - apply Forall_fmap. by eapply Forall_impl.
  - destruct (decide (length ts < Z.to_nat MAX_PROCESSES)%nat) as [Hlt|Hge].
    + left. rewrite lookup_drop, Nat.add_0_r. by apply Hstop.
    + right. apply drop_ge. lia.
Qed.

End Process_table_facts.

Lemma refresh_keeps_later_slots_witness :
  let before :=
    collect_process_stats (H := lp64) [user_task 1; user_task 2; user_task 3]
      (top_processes init_state) in
  collect_process_stats (H := lp64) [user_task 1] before !! 2%nat
  = before !! 2%nat.
Proof.
  intros before.
  apply (proj2 (refresh_keeps_later_slots (H := lp64) [user_task 1] before
                  eq_refl ltac:(vm_compute; lia))).
  vm_compute. lia.
Defined.

Lemma render_after_refresh_witness :
  let ts := [user_task 1; user_task 2; user_task 3] in
  top_rows (take (Z.to_nat MAX_PROCESSES)
              (collect_process_stats (H := lp64) ts (top_processes init_state)))
  = stats_of_task (H := lp64) <$> ts.
Proof.
  intros ts.
  apply (render_after_refresh (H := lp64) ts (top_processes init_state)).
  - reflexivity.
  - vm_compute. lia.
  - repeat constructor; discriminate.
  - intros _. reflexivity.
Defined.

(** ** More on the live sections *)

Lemma fold_add_mod {A} (f : A → Z) (M : Z) (l : list A) : ∀ a,
  fold_left (fun acc x => (acc + f x) mod M) l (a mod M)
  = (a + Zsum (f <$> l)) mod M.
Proof.
  induction l as [|x l IH]; intros a; cbn [fold_left fmap list_fmap Zsum foldr].
  - by rewrite Z.add_0_r.
  - rewrite Zplus_mod_idemp_l, IH. f_equal. fold (Zsum (f <$> l)). lia.
Qed.

Lemma fold_add_nonzero_mod {A} (f : A → Z) (M : Z) (l : list A) : ∀ a,
  fold_left (fun acc x => if f x =? 0 then acc else (acc + f x) mod M) l (a mod M)
  = (a + Zsum (f <$> l)) mod M.
Proof.
  induction l as [|x l IH]; intros a; cbn [fold_left fmap list_fmap Zsum foldr].
  - by rewrite Z.add_0_r.
  - fold (Zsum (f <$> l)). destruct (Z.eqb_spec (f x) 0) as [E|E].
    + rewrite IH, E. f_equal.
    + rewrite Zplus_mod_idemp_l, IH. f_equal. lia.
Qed.

Lemma fold_add_mod_0 {A} (f : A → Z) (M : Z) (l : list A) :
  fold_left (fun acc x => (acc + f x) mod M) l 0 = Zsum (f <$> l) mod M.
Proof. exact (fold_add_mod f M l 0). Qed.

Lemma fold_add_nonzero_mod_0 {A} (f : A → Z) (M : Z) (l : list A) :
  fold_left (fun acc x => if f x =? 0 then acc else (acc + f x) mod M) l 0
  = Zsum (f <$> l) mod M.
Proof. exact (fold_add_nonzero_mod f M l 0). Qed.

Lemma cpu_counter_sum_total c cpus :
  cpu_counter_sum c cpus = u64 (Zsum (cpustat_slot (cpu_usage_stat_value c) cpus)).
Proof.
  unfold cpu_counter_sum, cpustat_slot, u64.
  by rewrite (fold_add_mod_0 (fun kcs => aget (cpustat kcs) (cpu_usage_stat_value c))).
Qed.

Lemma cpu_sums_total cpus :
  let total c := u64 (Zsum (cpustat_slot (cpu_usage_stat_value c) cpus)) in
  cpu_sums cpus
  = (total CPUTIME_SOFTIRQ, total CPUTIME_NICE, total CPUTIME_SYSTEM,
     total CPUTIME_NICE).
Proof. intros total. by rewrite cpu_sums_counters, !cpu_counter_sum_total. Qed.

(** X6.  For every state of the per-CPU counters the four fields of the
    [cpu_stats] line are, in this order, the softirq, nice, system and nice
    counters, each summed over all CPUs modulo 2^64: the indices
    [VTIME_USER] and [VTIME_IDLE] select slots 3 and 1 of [cpustat]. *)
Theorem cpu_stats_fields (m : seq_file) (env : raw_metrics) :
  let total c :=
    u64 (Zsum (cpustat_slot (cpu_usage_stat_value c) (possible_cpus env))) in
  get_cpu_stats m env
  = m ++ cpu_stats_line (total CPUTIME_SOFTIRQ) (total CPUTIME_NICE)
                        (total CPUTIME_SYSTEM) (total CPUTIME_NICE).
Proof.
  intros total. unfold get_cpu_stats. by rewrite cpu_sums_total.
Qed.

Section Live_sections.
Context `{Arch}.

Lemma io_sums_fold ts : ∀ a b,
  fold_left
    (fun '(read_bytes, write_bytes) task =>
       ((if ioac_read_bytes task =? 0 then read_bytes
         else ulong (read_bytes + ioac_read_bytes task)),
        (if ioac_write_bytes task =? 0 then write_bytes
         else ulong (write_bytes + ioac_write_bytes task))))
    ts (a, b)
  = (fold_left (fun acc task => if ioac_read_bytes task =? 0 then acc
                                else ulong (acc + ioac_read_bytes task)) ts a,
     fold_left (fun acc task => if ioac_write_bytes task =? 0 then acc
                                else ulong (acc + ioac_write_bytes task)) ts b).
Proof.
  induction ts as [|task ts IH]; intros a b; [done|].
  cbn [fold_left]. apply IH.
Qed.

Lemma io_sums_total ts :
  io_sums ts = (ulong (Zsum (ioac_read_bytes <$> ts)),
                ulong (Zsum (ioac_write_bytes <$> ts))).
Proof.
  unfold io_sums. rewrite io_sums_fold. unfold ulong.
  by rewrite (fold_add_nonzero_mod_0 ioac_read_bytes),
    (fold_add_nonzero_mod_0 ioac_write_bytes).
Qed.

(** X7.  The two fields of the [io_stats] line are the read and the write
    byte counters summed over all tasks, modulo the range of
    [unsigned long]; skipping the tasks whose counter is 0 changes nothing. *)
Theorem io_stats_fields (m : seq_file) (env : raw_metrics) :
  get_io_stats m env
  = m ++ io_stats_line (ulong (Zsum (ioac_read_bytes <$> tasks env)))
                       (ulong (Zsum (ioac_write_bytes <$> tasks env))).
Proof.
  unfold get_io_stats. by rewrite io_sums_total.
Qed.

Lemma net_sums_fold devs : ∀ a b c d,
  fold_left
    (fun '(rxb, txb, rxp, txp) stats =>
       (ulong (rxb + Kernel.rx_bytes stats), ulong (txb + Kernel.tx_bytes stats),
        ulong (rxp + Kernel.rx_packets stats),
        ulong (txp + Kernel.tx_packets stats)))
    devs (a, b, c, d)
  = (fold_left (fun acc stats => ulong (acc + Kernel.rx_bytes stats)) devs a,
     fold_left (fun acc stats => ulong (acc + Kernel.tx_bytes stats)) devs b,
     fold_left (fun acc stats => ulong (acc + Kernel.rx_packets stats)) devs c,
     fold_left (fun acc stats => ulong (acc + Kernel.tx_packets stats)) devs d).
Proof.
  induction devs as [|stats devs IH]; intros a b c d; [done|].
  cbn [fold_left]. apply IH.
Qed.

Lemma net_sums_total devs :
  let total (f : rtnl_link_stats64 → Z) := ulong (Zsum (f <$> devs)) in
  net_sums devs
  = (total Kernel.rx_bytes, total Kernel.tx_bytes,
     total Kernel.rx_packets, total Kernel.tx_packets).
Proof.
  intros total. unfold net_sums. rewrite net_sums_fold. unfold total, ulong.
  by rewrite (fold_add_mod_0 Kernel.rx_bytes), (fold_add_mod_0 Kernel.tx_bytes),
    (fold_add_mod_0 Kernel.rx_packets), (fold_add_mod_0 Kernel.tx_packets).
Qed.

(** X8.  The four fields of the [network_stats] line are the received and
    transmitted bytes and the received and transmitted packets, each summed
    over all network devices modulo the range of [unsigned long]. *)
Theorem network_stats_fields (m : seq_file) (env : raw_metrics) :
  let total (f : rtnl_link_stats64 → Z) := ulong (Zsum (f <$> netdevs env)) in
  get_network_stats m env
  = m ++ network_stats_line (total Kernel.rx_bytes) (total Kernel.tx_bytes)
                            (total Kernel.rx_packets) (total Kernel.tx_packets).
Proof.
  intros total. unfold get_network_stats. by rewrite net_sums_total.
Qed.

End Live_sections.

(** The process count is the number of tasks, whatever the capacity of the
    table. *)
Lemma process_count_all (m : seq_file) (env : raw_metrics) :
  get_process_count m env
  = m ++ process_count_line (Z.of_nat (length (tasks env))).
Proof.
  unfold get_process_count, seq_printf. do 2 f_equal.
  assert (Hgen : ∀ (l : list task_struct) a,
    fold_left (fun count _ => count + 1) l a = a + Z.of_nat (length l)).
  { induction l as [|t l IH]; intros a; cbn [fold_left length]; [lia|].
    rewrite IH. lia. }
  by rewrite Hgen.
Qed.

(** ** More on the control channel *)

Lemma set_monitoring_same v st : monitoring st = v → set_monitoring v st = st.
Proof. intros <-. by destruct st. Qed.

Lemma copy_from_user_prefix (txt : text) rest n :
  (n ≤ length txt)%nat →
  copy_from_user ((Some <$> txt) ++ rest) n = Some (take n txt).
Proof.
  intros Hn. unfold copy_from_user.
  rewrite take_app_le by (rewrite length_fmap; lia).
  apply copy_from_user_readable.
Qed.

(** The state after a write of a readable text. *)
Lemma control_write_readable (txt : text) st :
  snd (control_write (Some <$> txt) st)
  = if decide (cs "enable" `prefix_of` txt) then set_monitoring 1 st
    else if decide (cs "disable" `prefix_of` txt) then set_monitoring 0 st
    else st.
Proof.
  rewrite (control_write_copied _ (take (Z.to_nat (Z.min (Z.of_nat
    (length (Some <$> txt))) (32 - 1))) txt)) by apply copy_from_user_readable.
  cbn [snd]. rewrite length_fmap.
  set (n := Z.to_nat (Z.min (Z.of_nat (length txt)) (32 - 1))).
  destruct (decide (length txt ≤ 31)%nat) as [Hs|Hl].
  - by rewrite take_ge by lia.
  - assert (n = 31%nat) as -> by lia.
    assert (He : cs "enable" `prefix_of` take 31 txt ↔ cs "enable" `prefix_of` txt)
      by (apply prefix_of_take; simpl; lia).
    assert (Hd : cs "disable" `prefix_of` take 31 txt ↔ cs "disable" `prefix_of` txt)
      by (apply prefix_of_take; simpl; lia).
    repeat case_decide; tauto.
Qed.

(** X9.  A control write never touches the ring buffer or the process
    table.  It returns either the length of the input, or [-EFAULT] with
    the whole state unchanged; the flag afterwards is the previous flag, 0
    or 1. *)
Theorem control_write_only_flag (buffer : list (option ascii)) (st : kstate) :
  let ret := fst (control_write buffer st) in
  let st' := snd (control_write buffer st) in
  stats_history st' = stats_history st
  ∧ top_processes st' = top_processes st
  ∧ (ret = Z.of_nat (length buffer) ∨ (ret = - EFAULT ∧ st' = st))
  ∧ (monitoring st' = monitoring st ∨ monitoring st' = 0 ∨ monitoring st' = 1).
Proof.
  intros ret st'.
  destruct (control_write_frame buffer st) as (Eh & Et & Em).
  split; [done|]. split; [done|]. split; [|done].
  unfold ret, st', control_write.
  destruct (copy_from_user _ _); [|by right].
  left. destruct (_ =? 0); [done|]. by destruct (_ =? 0).
Qed.

(** X10.  Writing the same input twice has the effect of writing it once;
    a readable "enable" while the flag is 1, or "disable" while it is 0,
    leaves the state as it is. *)
Theorem control_write_idempotent :
  (∀ buffer st,
     control_write buffer (snd (control_write buffer st))
     = control_write buffer st)
  ∧ (∀ (txt : text) st,
       cs "enable" `prefix_of` txt → monitoring st = 1 →
       snd (control_write (Some <$> txt) st) = st)
  ∧ (∀ (txt : text) st,
       cs "disable" `prefix_of` txt → monitoring st = 0 →
       snd (control_write (Some <$> txt) st) = st).
Proof.
  split; [|split].
  - intros buffer st.
    destruct (copy_from_user buffer
      (Z.to_nat (Z.min (Z.of_nat (length buffer)) (32 - 1)))) as [bytes|] eqn:Hc.
    + rewrite !(control_write_copied _ _ _ Hc). cbn [snd].
      repeat case_decide; done.
    + unfold control_write. by rewrite Hc.
  - intros txt st Hp Hm.
    rewrite control_write_readable.
    rewrite decide_True by done. by apply set_monitoring_same.
  - intros txt st Hp Hm.
    rewrite control_write_readable.
    rewrite decide_False.
    + rewrite decide_True by done. by apply set_monitoring_same.
    + intros [k ->]. destruct Hp as [k' Hk']. discriminate.
Qed.

(** X11.  Only the first 31 bytes of the input are read: whatever follows
    them, readable or not, the write succeeds, returns the full length and
    takes the decision the 31 bytes alone give. *)
Theorem control_write_reads_31_bytes (txt : text) (rest : list (option ascii))
    (st : kstate) :
  length txt = 31%nat →
  control_write ((Some <$> txt) ++ rest) st
  = (31 + Z.of_nat (length rest), snd (control_write (Some <$> txt) st)).
Proof.
  intros Hlen.
  assert (Hc : copy_from_user ((Some <$> txt) ++ rest)
    (Z.to_nat (Z.min (Z.of_nat (length ((Some <$> txt) ++ rest))) (32 - 1)))
    = Some txt).
  { rewrite copy_from_user_prefix by (rewrite length_app, length_fmap; lia).
    rewrite take_ge; [done|]. rewrite length_app, length_fmap. lia. }
  rewrite (control_write_copied _ _ _ Hc).
  assert (Hc' : copy_from_user (Some <$> txt)
    (Z.to_nat (Z.min (Z.of_nat (length (Some <$> txt))) (32 - 1))) = Some txt).
  { rewrite copy_from_user_readable, take_ge; [done|].
    rewrite length_fmap. lia. }
  rewrite (control_write_copied _ _ _ Hc'). cbn [snd].
  f_equal. rewrite length_app, length_fmap. lia.
Qed.

(** ** Loading and unloading *)

(** X12.  [system_monitor_init] releases nothing on its error paths.  Each
    proc entry it could create stays registered whatever it returns.  When
    one of them is missing it returns [-ENOMEM] and touches neither the
    timer nor the thread; once both exist the timer is armed, and if the
    thread cannot be started it returns the error of [kthread_run] with the
    entries registered and the timer armed.  When everything succeeds it
    returns 0 holding all four objects, which [system_monitor_exit] gives
    back.  In every case [head] is 0 when it returns and the rest of the
    module state is as it was. *)
Theorem init_keeps_what_it_acquired (k : init_env) (r : resources) (st : kstate) :
  let ret := fst (fst (system_monitor_init k r st)) in
  let r' := snd (fst (system_monitor_init k r st)) in
  let st' := snd (system_monitor_init k r st) in
  proc_entry r' = proc_create_stats k
  ∧ control_entry r' = proc_create_control k
  ∧ (proc_create_stats k = true → proc_create_control k = true →
     stats_timer_pending r' = true
     ∧ (∀ err, kthread_run_error k = Some err →
          ret = err ∧ monitor_thread r' = monitor_thread r))
  ∧ (proc_create_stats k = false ∨ proc_create_control k = false →
     ret = - ENOMEM
     ∧ stats_timer_pending r' = stats_timer_pending r
     ∧ monitor_thread r' = monitor_thread r)
  ∧ (proc_create_stats k = true → proc_create_control k = true →
     kthread_run_error k = None →
     ret = 0
     ∧ r' = {| proc_entry := true; control_entry := true;
               stats_timer_pending := true; monitor_thread := true |}
     ∧ system_monitor_exit r' = no_resources)
  ∧ head (stats_history st') = 0
  ∧ cpu_usage (stats_history st') = cpu_usage (stats_history st)
  ∧ mem_usage (stats_history st') = mem_usage (stats_history st)
  ∧ monitoring st' = monitoring st
  ∧ top_processes st' = top_processes st.
Proof.
  unfold system_monitor_init.
  destruct k as [[] [] [err|]]; cbn;
    repeat match goal with
           | |- _ ∧ _ => split
           | |- _ → _ => intro
           | |- ∀ _, _ => intro
           | H : _ ∨ _ |- _ => destruct H
           end;
    first [reflexivity | congruence].
Qed.

Lemma init_keeps_what_it_acquired_witness :
  let k := {| proc_create_stats := true; proc_create_control := false;
              kthread_run_error := None |} in
  fst (system_monitor_init k no_resources init_state)
  = (- ENOMEM, {| proc_entry := true; control_entry := false;
                  stats_timer_pending := false; monitor_thread := false |}).
Proof.
  intros k.
  destruct (init_keeps_what_it_acquired k no_resources init_state)
    as (Hstats & Hcontrol & _ & Hfail & _).
  destruct Hfail as (Hret & Htimer & Hthread); [right; reflexivity|].
  destruct (system_monitor_init k no_resources init_state) as [[ret r'] st'].
  simpl in *. destruct r'. simpl in *. congruence.
Defined.

(** * Further properties of the display client *)

(** ** Printing and scanning decimal numbers *)

Lemma scan_digits_stop s acc : no_digit_ahead s → scan_digits s acc = (acc, s).
Proof. destruct s as [|c s]; [done|]. simpl. by intros ->. Qed.

Lemma scan_digits_uint d : ∀ acc rest,
  no_digit_ahead rest →
  scan_digits (cs (NilEmpty.string_of_uint d) ++ rest) acc = (uint_val d acc, rest).
Proof.
  induction d; intros acc rest Hrest;
    cbn [NilEmpty.string_of_uint cs list_ascii_of_string app uint_val];
    [by apply scan_digits_stop | ..];
    rewrite <- (IHd _ rest Hrest); reflexivity.
Qed.

Lemma uint_val_acc d : ∀ acc : positive,
  uint_val d (Z.pos acc) = Z.pos (Pos.of_uint_acc d acc).
Proof.
  induction d; intros acc; cbn [uint_val Pos.of_uint_acc]; [done | ..];
    rewrite <- IHd; f_equal; lia.
Qed.

Lemma uint_val_0 d : uint_val d 0 = Z.of_N (Pos.of_uint d).
Proof.
  induction d; cbn [uint_val Pos.of_uint]; [done | exact IHd | ..];
    apply (uint_val_acc d).
Qed.

Lemma uint_val_to_uint p : uint_val (Pos.to_uint p) 0 = Z.pos p.
Proof. by rewrite uint_val_0, Unsigned.of_to. Qed.

(** A digit is neither white space nor a sign. *)
Lemma digit_not_space_or_sign c d :
  digit_value c = Some d →
  isspace c = false ∧ c ≠ "-"%char ∧ c ≠ "+"%char.
Proof.
  destruct c as [[] [] [] [] [] [] [] []]; intros Hd; try discriminate Hd;
    repeat split; discriminate.
Qed.

Lemma scan_number_digit c s :
  is_Some (digit_value c) →
  scan_number (c :: s)
  = Some (fst (scan_digits (c :: s) 0), snd (scan_digits (c :: s) 0)).
Proof.
  intros [d Hd]. destruct (digit_not_space_or_sign c d Hd) as (Hs & Hm & Hp).
  unfold scan_number. cbn [skip_space]. rewrite Hs.
  rewrite !decide_False by done. rewrite Hd.
  by destruct (scan_digits (c :: s) 0).
Qed.

Lemma uint_string_first d :
  d ≠ Decimal.Nil →
  ∃ c s, cs (NilEmpty.string_of_uint d) = c :: s ∧ is_Some (digit_value c).
Proof.
  destruct d; intros Hd; [done | ..]; eexists _, _; split; try reflexivity;
    by eexists.
Qed.

Lemma scan_number_uint d rest :
  d ≠ Decimal.Nil → no_digit_ahead rest →
  scan_number (cs (NilEmpty.string_of_uint d) ++ rest) = Some (uint_val d 0, rest).
Proof.
  intros Hd Hrest. destruct (uint_string_first d Hd) as (c & s & Hcs & Hc).
  pose proof (scan_digits_uint d 0 rest Hrest) as Hscan.
  rewrite Hcs in *. cbn [app] in *.
  rewrite scan_number_digit by done. by rewrite Hscan.
Qed.

Lemma dec_pos p : dec (Z.pos p) = cs (NilEmpty.string_of_uint (Pos.to_uint p)).
Proof.
  unfold dec. cbn [Z.to_int NilZero.string_of_int]. unfold NilZero.string_of_uint.
  pose proof (Unsigned.to_uint_nonnil p). by destruct (Pos.to_uint p).
Qed.

Lemma dec_neg p :
  dec (Z.neg p) = "-"%char :: cs (NilEmpty.string_of_uint (Pos.to_uint p)).
Proof.
  unfold dec. cbn [Z.to_int NilZero.string_of_int cs list_ascii_of_string].
  f_equal. unfold NilZero.string_of_uint.
  pose proof (Unsigned.to_uint_nonnil p). by destruct (Pos.to_uint p).
Qed.

(** Scanning what was printed gives the number back. *)
Lemma scan_number_dec (z : Z) (rest : text) :
  no_digit_ahead rest → scan_number (dec z ++ rest) = Some (z, rest).
Proof.
  intros Hrest. destruct z as [|p|p].
  - change (dec 0) with (cs (NilEmpty.string_of_uint (Decimal.D0 Decimal.Nil))).
    by rewrite scan_number_uint.
  - rewrite dec_pos, scan_number_uint, uint_val_to_uint;
      [done | apply Unsigned.to_uint_nonnil | done].
  - rewrite dec_neg.
    pose proof (scan_number_uint (Pos.to_uint p) rest
      (Unsigned.to_uint_nonnil p) Hrest) as Hscan.
    destruct (uint_string_first _ (Unsigned.to_uint_nonnil p))
      as (c & s & Hcs & [d Hd]).
    rewrite Hcs in *. cbn [app] in *.
    destruct (digit_not_space_or_sign c d Hd) as (Hs & Hm & Hp).
    unfold scan_number in *. cbn [skip_space] in *.
    rewrite Hs in Hscan. rewrite !decide_False in Hscan by done.
    change (isspace "-") with false. cbn match. rewrite decide_True by done.
    rewrite Hd in *. destruct (scan_digits (c :: s ++ rest) 0) as [v r].
    injection Hscan as -> ->. by rewrite uint_val_to_uint.
Qed.

(** ** Parsing the lines the kernel module prints *)

Lemma no_digit_ahead_comma s : no_digit_ahead (COMMA :: s).
Proof. reflexivity. Qed.

Lemma sscanf_numbers_more n z s :
  sscanf_numbers (S (S n)) (dec z ++ COMMA :: s) = z :: sscanf_numbers (S n) s.
Proof.
  cbn [sscanf_numbers]. rewrite scan_number_dec by apply no_digit_ahead_comma.
  by rewrite decide_True.
Qed.

Lemma sscanf_numbers_last n z rest :
  no_digit_ahead rest →
  (n = 0%nat ∨ hd_error rest ≠ Some COMMA) →
  sscanf_numbers (S n) (dec z ++ rest) = [z].
Proof.
  intros Hrest Hn. cbn [sscanf_numbers]. rewrite scan_number_dec by done.
  destruct n as [|n]; [done|]. destruct rest as [|c rest]; [done|].
  destruct Hn as [Hn|Hn]; [done|].
  rewrite decide_False; [done|]. intros ->. by apply Hn.
Qed.

Lemma skip_delims_first delim c s :
  c ∉ delim → skip_delims delim (c :: s) = c :: s.
Proof. intros Hc. cbn. by rewrite bool_decide_eq_false_2. Qed.

Lemma token_end_app delim s c r :
  Forall (fun x => x ∉ delim) s → c ∈ delim →
  token_end delim (s ++ c :: r) = (s, c :: r).
Proof.
  intros Hs Hc. induction Hs as [|x s Hx _ IH]; cbn [app token_end].
  - by rewrite bool_decide_eq_true_2.
  - rewrite bool_decide_eq_false_2 by done. by rewrite IH.
Qed.

Lemma token_end_all delim s :
  Forall (fun x => x ∉ delim) s → token_end delim s = (s, []).
Proof.
  induction 1 as [|x s Hx _ IH]; cbn [token_end]; [done|].
  rewrite bool_decide_eq_false_2 by done. by rewrite IH.
Qed.

(** [strtok] on a line made of a key, a colon and the rest. *)
Lemma strtok_key_colon key s :
  key ≠ [] → Forall (fun c => c ≠ COLON) key →
  strtok (key ++ COLON :: s) [COLON] = (Some key, s).
Proof.
  intros Hne Hkey. unfold strtok.
  assert (Hk : Forall (fun x => x ∉ [COLON]) key).
  { eapply Forall_impl; [exact Hkey|]. intros x Hx Hin.
    by apply list_elem_of_singleton in Hin. }
  destruct key as [|c key]; [done|]. cbn [app].
  apply Forall_cons in Hk as Hk'. destruct Hk' as [Hc _].
  rewrite skip_delims_first by done.
  change (c :: key ++ COLON :: s) with ((c :: key) ++ COLON :: s).
  rewrite token_end_app; [done | done | apply list_elem_of_here].
Qed.

(** [strtok] on the rest of the line: a value without line feed, then any
    number of line feeds. *)
Lemma strtok_value body n :
  body ≠ [] → Forall (fun c => c ≠ LF) body →
  fst (strtok (body ++ replicate (S n) LF) [LF]) = Some body.
Proof.
  intros Hne Hbody. unfold strtok.
  assert (Hb : Forall (fun x => x ∉ [LF]) body).
  { eapply Forall_impl; [exact Hbody|]. intros x Hx Hin.
    by apply list_elem_of_singleton in Hin. }
  destruct body as [|c body]; [done|]. cbn [app replicate].
  apply Forall_cons in Hb as Hb'. destruct Hb' as [Hc _].
  rewrite skip_delims_first by done.
  change (c :: body ++ LF :: replicate n LF)
    with ((c :: body) ++ LF :: replicate n LF).
  rewrite token_end_app; [done | done | apply list_elem_of_here].
Qed.

Lemma plain_no_lf s : plain s → Forall (fun c => c ≠ LF) s.
Proof. intros Hs. eapply Forall_impl; [exact Hs|]. by intros c [_ ?]. Qed.

Lemma dec_nonempty z : dec z ≠ [].
Proof. destruct (dec_first z) as (c & s & -> & _). done. Qed.


Lemma sscanf_numbers_end n z : sscanf_numbers (S n) (dec z) = [z].
Proof.
  rewrite <- (app_nil_r (dec z)). apply sscanf_numbers_last; [done|].
  by right.
Qed.

Lemma parse_line_unfold key body :
  key ≠ [] → Forall (fun c => c ≠ COLON) key → plain body → body ≠ [] →
  strtok (key ++ [COLON] ++ body ++ [LF]) [COLON] = (Some key, body ++ [LF])
  ∧ ∃ save, strtok (body ++ [LF]) [LF] = (Some body, save).
Proof.
  intros Hk1 Hk2 Hb1 Hb2. split; [by apply strtok_key_colon|].
  pose proof (strtok_value body 0 Hb2 (plain_no_lf _ Hb1)) as Hv.
  cbn [replicate] in Hv.
  destruct (strtok (body ++ [LF]) [LF]) as [value save]. cbn [fst] in Hv.
  exists save. by rewrite Hv.
Qed.

Ltac kernel_line key body :=
  let Hk := fresh "Hk" in let Hv := fresh "Hv" in let save := fresh "save" in
  destruct (parse_line_unfold key body) as (Hk & save & Hv);
    [done | repeat constructor; discriminate | auto 20 with plain
    | first [ apply dec_nonempty
            | intros Hnil; by apply app_eq_nil in Hnil as [?%dec_nonempty _] ] |];
  match goal with
  | |- parse_line ?line _ = _ =>
      replace line with (key ++ [COLON] ++ body ++ [LF])
        by (rewrite <- ?app_assoc; reflexivity)
  end;
  unfold parse_line; rewrite Hk, Hv; clear Hk Hv.

Section Line_round_trip.
Context `{Arch}.

(** The state of [parse_line] once both calls of [strtok] have returned, on
    a line made of a key, a colon, a value without line feed and a line
    feed. *)
Lemma parse_line_key_value key body stats :
  key ≠ [] → Forall (fun c => c ≠ COLON) key → plain body → body ≠ [] →
  parse_line (key ++ [COLON] ++ body ++ [LF]) stats
  = parse_line (key ++ [COLON] ++ body) stats.
Proof.
  intros Hk1 Hk2 Hb1 Hb2. unfold parse_line. cbn [app].
  rewrite !strtok_key_colon by done.
  pose proof (strtok_value body 0 Hb2 (plain_no_lf _ Hb1)) as Hv.
  cbn [replicate] in Hv.
  destruct (strtok (body ++ [LF]) [LF]) as [value save]. cbn [fst] in Hv.
  rewrite Hv. clear Hv.
  assert (Hv : fst (strtok body [LF]) = Some body).
  { unfold strtok.
    assert (Hb : Forall (fun x => x ∉ [LF]) body).
    { eapply Forall_impl; [exact (plain_no_lf _ Hb1)|]. intros x Hx Hin.
      by apply list_elem_of_singleton in Hin. }
    destruct body as [|c body]; [done|].
    apply Forall_cons in Hb as Hb'. destruct Hb' as [Hc _].
    rewrite skip_delims_first by done. by rewrite token_end_all. }
  destruct (strtok body [LF]) as [value' save']. cbn [fst] in Hv.
  by rewrite Hv.
Qed.

(** A number that fits the type of the field is stored as it is. *)
Lemma conv_llu_fits z : 0 ≤ z < 2 ^ 64 → conv_llu z = z.
Proof.
  intros Hz. unfold conv_llu, conv_unsigned.
  rewrite Z.abs_eq by lia.
  destruct (Z.leb_spec z (2 ^ 64 - 1)); [|lia]. apply Z.mod_small. lia.
Qed.

Lemma conv_lu_fits z : 0 ≤ z < 2 ^ BITS_PER_LONG → conv_lu z = z.
Proof.
  intros Hz. unfold conv_lu, conv_unsigned.
  rewrite Z.abs_eq by lia.
  destruct (Z.leb_spec z (2 ^ BITS_PER_LONG - 1)); [|lia].
  apply Z.mod_small. lia.
Qed.

Lemma conv_d_fits z : - 2 ^ 31 ≤ z < 2 ^ 31 → conv_d z = z.
Proof.
  intros Hz. unfold conv_d.
  assert (2 ^ 31 ≤ 2 ^ (Z.max BITS_PER_LONG 32 - 1))
    by (apply Z.pow_le_mono_r; lia).
  rewrite Z.min_l, Z.max_r by lia.
  rewrite Z.mod_small by lia. lia.
Qed.

Lemma parse_cpu_stats_line a b c d stats :
  parse_line (cpu_stats_line a b c d) stats
  = {| user := conv_llu a; nice := conv_llu b; system := conv_llu c;
       idle := conv_llu d;
       total_mem := total_mem stats; free_mem := free_mem stats;
       used_mem := used_mem stats; process_count := process_count stats;
       rx_bytes := rx_bytes stats; tx_bytes := tx_bytes stats;
       rx_packets := rx_packets stats; tx_packets := tx_packets stats |}.
Proof.
  unfold cpu_stats_line.
  kernel_line (cs "cpu_stats")
    (dec a ++ [COMMA] ++ dec b ++ [COMMA] ++ dec c ++ [COMMA] ++ dec d).
  rewrite decide_True by done. cbn [app].
  by rewrite !sscanf_numbers_more, sscanf_numbers_end.
Qed.

Lemma parse_memory_stats_line a b c stats :
  parse_line (memory_stats_line a b c) stats
  = {| user := user stats; nice := nice stats; system := system stats;
       idle := idle stats;
       total_mem := conv_lu a; free_mem := conv_lu b; used_mem := conv_lu c;
       process_count := process_count stats;
       rx_bytes := rx_bytes stats; tx_bytes := tx_bytes stats;
       rx_packets := rx_packets stats; tx_packets := tx_packets stats |}.
Proof.
  unfold memory_stats_line.
  kernel_line (cs "memory_stats") (dec a ++ [COMMA] ++ dec b ++ [COMMA] ++ dec c).
  rewrite decide_False by done. rewrite decide_True by done. cbn [app].
  by rewrite !sscanf_numbers_more, sscanf_numbers_end.
Qed.

Lemma parse_process_count_line n stats :
  parse_line (process_count_line n) stats
  = {| user := user stats; nice := nice stats; system := system stats;
       idle := idle stats;
       total_mem := total_mem stats; free_mem := free_mem stats;
       used_mem := used_mem stats;
       process_count := conv_d n;
       rx_bytes := rx_bytes stats; tx_bytes := tx_bytes stats;
       rx_packets := rx_packets stats; tx_packets := tx_packets stats |}.
Proof.
  unfold process_count_line.
  kernel_line (cs "process_count") (dec n).
  rewrite !decide_False by done. rewrite decide_True by done.
  by rewrite sscanf_numbers_end.
Qed.

Lemma parse_network_stats_line a b c d stats :
  parse_line (network_stats_line a b c d) stats
  = {| user := user stats; nice := nice stats; system := system stats;
       idle := idle stats;
       total_mem := total_mem stats; free_mem := free_mem stats;
       used_mem := used_mem stats; process_count := process_count stats;
       rx_bytes := conv_lu a; tx_bytes := conv_lu b;
       rx_packets := conv_lu c; tx_packets := conv_lu d |}.
Proof.
  unfold network_stats_line.
  kernel_line (cs "network_stats")
    (dec a ++ [COMMA] ++ dec b ++ [COMMA] ++ dec c ++ [COMMA] ++ dec d).
  rewrite !decide_False by done. rewrite decide_True by done. cbn [app].
  by rewrite !sscanf_numbers_more, sscanf_numbers_end.
Qed.

(** X14.  The client reads back what the module prints: applied to the
    [cpu_stats], [memory_stats], [process_count] or [network_stats] line
    printed for values that fit the type of their field, as the values the
    module prints do, [parse_line] stores exactly these values and leaves
    the other fields alone. *)
Theorem parse_line_reads_kernel_lines (stats : system_stats) :
  (∀ a b c d,
     0 ≤ a < 2 ^ 64 → 0 ≤ b < 2 ^ 64 → 0 ≤ c < 2 ^ 64 → 0 ≤ d < 2 ^ 64 →
     parse_line (cpu_stats_line a b c d) stats
     = {| user := a; nice := b; system := c; idle := d;
          total_mem := total_mem stats; free_mem := free_mem stats;
          used_mem := used_mem stats; process_count := process_count stats;
          rx_bytes := rx_bytes stats; tx_bytes := tx_bytes stats;
          rx_packets := rx_packets stats; tx_packets := tx_packets stats |})
  ∧ (∀ a b c,
       0 ≤ a < 2 ^ BITS_PER_LONG → 0 ≤ b < 2 ^ BITS_PER_LONG →
       0 ≤ c < 2 ^ BITS_PER_LONG →
       parse_line (memory_stats_line a b c) stats
       = {| user := user stats; nice := nice stats; system := system stats;
            idle := idle stats;
            total_mem := a; free_mem := b; used_mem := c;
            process_count := process_count stats;
            rx_bytes := rx_bytes stats; tx_bytes := tx_bytes stats;
            rx_packets := rx_packets stats; tx_packets := tx_packets stats |})
  ∧ (∀ n,
       - 2 ^ 31 ≤ n < 2 ^ 31 →
       parse_line (process_count_line n) stats
       = {| user := user stats; nice := nice stats; system := system stats;
            idle := idle stats;
            total_mem := total_mem stats; free_mem := free_mem stats;
            used_mem := used_mem stats;
            process_count := n;
            rx_bytes := rx_bytes stats; tx_bytes := tx_bytes stats;
            rx_packets := rx_packets stats; tx_packets := tx_packets stats |})
  ∧ (∀ a b c d,
       0 ≤ a < 2 ^ BITS_PER_LONG → 0 ≤ b < 2 ^ BITS_PER_LONG →
       0 ≤ c < 2 ^ BITS_PER_LONG → 0 ≤ d < 2 ^ BITS_PER_LONG →
       parse_line (network_stats_line a b c d) stats
       = {| user := user stats; nice := nice stats; system := system stats;
            idle := idle stats;
            total_mem := total_mem stats; free_mem := free_mem stats;
            used_mem := used_mem stats; process_count := process_count stats;
            rx_bytes := a; tx_bytes := b; rx_packets := c; tx_packets := d |}).
Proof.
  split; [|split; [|split]]; intros.
  - rewrite parse_cpu_stats_line. by rewrite !conv_llu_fits.
  - rewrite parse_memory_stats_line. by rewrite !conv_lu_fits.
  - rewrite parse_process_count_line. by rewrite conv_d_fits.
  - rewrite parse_network_stats_line. by rewrite !conv_lu_fits.
Qed.

End Line_round_trip.

(** ** Lines that are cut short *)

Lemma skip_delims_none delim s :
  Forall (fun x => x ∉ delim) s → skip_delims delim s = s.
Proof. destruct 1; [done|]. by apply skip_delims_first. Qed.

Lemma skip_delims_all delim n c :
  c ∈ delim → skip_delims delim (replicate n c) = [].
Proof.
  intros Hc. induction n as [|n IH]; [done|].
  cbn [replicate skip_delims]. by rewrite bool_decide_eq_true_2.
Qed.

Lemma not_colon_delim s :
  Forall (fun c => c ≠ COLON) s → Forall (fun x => x ∉ [COLON]) s.
Proof.
  intros Hs. eapply Forall_impl; [exact Hs|]. intros x Hx Hin.
  by apply list_elem_of_singleton in Hin.
Qed.

Lemma stats_eta (stats : system_stats) :
  {| user := user stats; nice := nice stats; system := system stats;
     idle := idle stats; total_mem := total_mem stats;
     free_mem := free_mem stats; used_mem := used_mem stats;
     process_count := process_count stats; rx_bytes := rx_bytes stats;
     tx_bytes := tx_bytes stats; rx_packets := rx_packets stats;
     tx_packets := tx_packets stats |} = stats.
Proof. by destruct stats. Qed.

Section Short_lines.
Context `{Arch}.

(** X15.  A line without a colon changes nothing, whatever it holds, and
    neither does a line that has only line feeds, or nothing, after the
    colon that ends its key: [parse_line] returns before it compares the
    key. *)
Theorem parse_line_needs_value (stats : system_stats) :
  (∀ line, Forall (fun c => c ≠ COLON) line → parse_line line stats = stats)
  ∧ (∀ key n,
       Forall (fun c => c ≠ COLON) key →
       parse_line (key ++ [COLON] ++ replicate n LF) stats = stats).
Proof.
  split.
  - intros line Hline. unfold parse_line, strtok at 1.
    rewrite skip_delims_none by by apply not_colon_delim.
    destruct line as [|c line]; [done|].
    rewrite token_end_all by by apply not_colon_delim. done.
  - intros key n Hkey. destruct key as [|c key].
    + unfold parse_line, strtok at 1. cbn [app skip_delims].
      rewrite bool_decide_eq_true_2 by apply list_elem_of_here.
      assert (Hlf : Forall (fun x => x ∉ [COLON]) (replicate n LF)).
      { apply Forall_replicate. intros Hin.
        by apply list_elem_of_singleton in Hin. }
      rewrite skip_delims_none by done.
      destruct n as [|n]; [done|]. cbn [replicate] in *.
      by rewrite token_end_all.
    + unfold parse_line. cbn [app].
      change (c :: key ++ COLON :: replicate n LF)
        with ((c :: key) ++ COLON :: replicate n LF).
      rewrite strtok_key_colon by done.
      unfold strtok. by rewrite skip_delims_all by apply list_elem_of_here.
Qed.

(** X16.  [sscanf] stops at the first mismatch and keeps what it has
    stored: a [cpu_stats] line with two numbers sets [user] and [nice] and
    leaves [system] and [idle], and the same line with or without its line
    feed is parsed alike; a value that does not begin with a number
    changes nothing. *)
Theorem parse_line_partial_value (stats : system_stats) :
  (∀ a b,
     0 ≤ a < 2 ^ 64 → 0 ≤ b < 2 ^ 64 →
     parse_line (cs "cpu_stats:" ++ dec a ++ [COMMA] ++ dec b ++ [LF]) stats
     = {| user := a; nice := b; system := system stats;
          idle := idle stats;
          total_mem := total_mem stats; free_mem := free_mem stats;
          used_mem := used_mem stats; process_count := process_count stats;
          rx_bytes := rx_bytes stats; tx_bytes := tx_bytes stats;
          rx_packets := rx_packets stats; tx_packets := tx_packets stats |})
  ∧ (∀ key value,
       key ≠ [] → Forall (fun c => c ≠ COLON) key → plain value → value ≠ [] →
       parse_line (key ++ [COLON] ++ value ++ [LF]) stats
       = parse_line (key ++ [COLON] ++ value) stats)
  ∧ (∀ key value,
       key ≠ [] → Forall (fun c => c ≠ COLON) key → plain value → value ≠ [] →
       scan_number value = None →
       parse_line (key ++ [COLON] ++ value ++ [LF]) stats = stats).
Proof.
  split; [|split].
  - intros a b Ha Hb.
    kernel_line (cs "cpu_stats") (dec a ++ [COMMA] ++ dec b).
    rewrite decide_True by done. cbn [app].
    rewrite sscanf_numbers_more, sscanf_numbers_end. cbn.
    by rewrite !conv_llu_fits.
  - intros. by apply parse_line_key_value.
  - intros key value Hk1 Hk2 Hv1 Hv2 Hscan.
    destruct (parse_line_unfold key value) as (Hk & save & Hv); try done.
    unfold parse_line. rewrite Hk, Hv.
    assert (Hn : ∀ n, sscanf_numbers (S n) value = [])
      by (intros n; cbn [sscanf_numbers]; by rewrite Hscan).
    rewrite !Hn. cbn. rewrite stats_eta. by repeat case_decide.
Qed.

End Short_lines.

Lemma parse_line_needs_value_witness :
  parse_line (H := lp64) (cs "cpu_stats") zero_stats = zero_stats
  ∧ parse_line (H := lp64) (cs "cpu_stats" ++ [COLON] ++ replicate 1 LF) zero_stats
    = zero_stats.
Proof.
  split.
  - apply (proj1 (parse_line_needs_value (H := lp64) zero_stats)).
    repeat constructor; discriminate.
  - apply (proj2 (parse_line_needs_value (H := lp64) zero_stats)).
    repeat constructor; discriminate.
Defined.

Lemma parse_line_partial_value_witness :
  parse_line (H := lp64) (cs "memory_stats" ++ [COLON] ++ cs "n/a" ++ [LF])
    zero_stats = zero_stats.
Proof.
  apply (proj2 (proj2 (parse_line_partial_value (H := lp64) zero_stats))).
  - discriminate.
  - repeat constructor; discriminate.
  - repeat constructor; discriminate.
  - discriminate.
  - reflexivity.
Defined.

(** ** Reading the file line by line *)

Lemma fgets_line_spec n : ∀ fp line rest,
  fgets_line n fp = (line, rest) →
  line ++ rest = fp
  ∧ (length line ≤ n)%nat
  ∧ (∀ i, line !! i = Some LF → S i = length line)
  ∧ ((0 < n)%nat → fp ≠ [] → line ≠ []).
Proof.
  induction n as [|n IH]; intros fp line rest Hf.
  - cbn in Hf. injection Hf as <- <-. repeat split; try done; lia.
  - destruct fp as [|c fp].
    + cbn in Hf. injection Hf as <- <-. repeat split; try done. cbn; lia.
    + cbn [fgets_line] in Hf. destruct (decide (c = LF)) as [->|Hc].
      * injection Hf as <- <-. repeat split; try done; [cbn; lia|].
        intros [|i]; [done|]. by destruct i.
      * destruct (fgets_line n fp) as [line' rest'] eqn:Hf'.
        injection Hf as <- <-.
        destruct (IH fp line' rest' Hf') as (Happ & Hlen & Hlf & _).
        repeat split; try done.
        -- cbn [app]. by rewrite Happ.
        -- cbn [length]. lia.
        -- intros [|i]; cbn [lookup list_lookup length].
           ++ intros [= ->]. done.
           ++ intros Hi. f_equal. by apply Hlf.
Qed.

Lemma fgets_lines_concat fuel : ∀ fp,
  (length fp ≤ fuel)%nat → concat (fgets_lines fuel fp) = fp.
Proof.
  induction fuel as [|fuel IH]; intros fp Hlen.
  - destruct fp; [done|]. cbn in Hlen. lia.
  - destruct fp as [|c fp]; [done|]. cbn [fgets_lines].
    destruct (fgets_line 255 (c :: fp)) as [line rest] eqn:Hf.
    destruct (fgets_line_spec _ _ _ _ Hf) as (Happ & _ & _ & Hne).
    cbn [concat]. rewrite IH; [done|].
    assert (line ≠ []) by (apply Hne; [lia|done]).
    apply (f_equal length) in Happ. rewrite length_app in Happ.
    destruct line; [done|]. cbn [length] in *. lia.
Qed.

Lemma fgets_lines_fuel fuel1 : ∀ fuel2 fp,
  (length fp ≤ fuel1)%nat → (length fp ≤ fuel2)%nat →
  fgets_lines fuel1 fp = fgets_lines fuel2 fp.
Proof.
  induction fuel1 as [|fuel1 IH]; intros fuel2 fp H1 H2.
  - destruct fp; [by destruct fuel2|]. cbn in H1. lia.
  - destruct fp as [|c fp]; [by destruct fuel2|].
    destruct fuel2 as [|fuel2]; [cbn in H2; lia|]. cbn [fgets_lines].
    destruct (fgets_line 255 (c :: fp)) as [line rest] eqn:Hf.
    destruct (fgets_line_spec _ _ _ _ Hf) as (Happ & _ & _ & Hne).
    assert (line ≠ []) by (apply Hne; [lia|done]).
    apply (f_equal length) in Happ. rewrite length_app in Happ.
    f_equal. apply IH; destruct line; try done; cbn [length] in *; lia.
Qed.

Lemma fgets_lines_shape fuel : ∀ fp,
  Forall (fun line =>
            line ≠ [] ∧ (length line ≤ 255)%nat
            ∧ ∀ i, line !! i = Some LF → S i = length line)
         (fgets_lines fuel fp).
Proof.
  induction fuel as [|fuel IH]; intros fp; [constructor|].
  destruct fp as [|c fp]; [constructor|]. cbn [fgets_lines].
  destruct (fgets_line 255 (c :: fp)) as [line rest] eqn:Hf.
  destruct (fgets_line_spec _ _ _ _ Hf) as (_ & Hlen & Hlf & Hne).
  constructor; [|apply IH]. repeat split; try done. apply Hne; [lia|done].
Qed.

(** X17.  The [fgets] loop of [read_stats] cuts the file into non-empty
    lines of at most 255 characters that hold a line feed only as their
    last character; put together again the lines give the file, so that
    nothing is skipped and nothing is read twice. *)
Theorem fgets_lines_partition (fp : text) :
  let lines := fgets_lines (length fp) fp in
  concat lines = fp
  ∧ Forall (fun line =>
              line ≠ [] ∧ (length line ≤ 255)%nat
              ∧ ∀ i, line !! i = Some LF → S i = length line) lines.
Proof. split; [by apply fgets_lines_concat | apply fgets_lines_shape]. Qed.

Lemma fgets_line_short n : ∀ line rest,
  Forall (fun c => c ≠ LF) line → (length line < n)%nat →
  fgets_line n (line ++ LF :: rest) = (line ++ [LF], rest).
Proof.
  induction n as [|n IH]; intros line rest Hline Hlen; [lia|].
  destruct Hline as [|c line Hc Hline]; cbn [app fgets_line].
  - by rewrite decide_True.
  - rewrite decide_False by done. rewrite IH; [done | done |].
    cbn [length] in Hlen. lia.
Qed.

Lemma fgets_lines_whole lines : ∀ fuel,
  Forall whole_line lines →
  (length (concat lines) ≤ fuel)%nat →
  fgets_lines fuel (concat lines) = lines.
Proof.
  induction lines as [|line lines IH]; intros fuel Hall Hfuel.
  - by destruct fuel.
  - apply Forall_cons in Hall as [(body & -> & Hbody & Hlen) Hall].
    cbn [concat] in *. rewrite <- app_assoc in *. cbn [app] in *.
    destruct fuel as [|fuel].
    { rewrite length_app in Hfuel. cbn in Hfuel. lia. }
    cbn [fgets_lines]. rewrite fgets_line_short by done.
    destruct (body ++ LF :: concat lines) as [|c s] eqn:E.
    { by destruct body. }
    rewrite IH; [done | done |].
    rewrite <- E, length_app in Hfuel. cbn [length] in Hfuel. lia.
Qed.

(** ** The length of a decimal rendering *)

Lemma uint_val_lower d : ∀ acc,
  0 ≤ acc →
  acc * 10 ^ Z.of_nat (length (cs (NilEmpty.string_of_uint d))) ≤ uint_val d acc.
Proof.
  induction d; intros acc Hacc;
    cbn [NilEmpty.string_of_uint cs list_ascii_of_string length uint_val];
    [cbn; lia | ..];
    fold (cs (NilEmpty.string_of_uint d));
    rewrite Nat2Z.inj_succ, Z.pow_succ_r by lia;
    (etrans; [|apply IHd; lia]);
    set (P := 10 ^ Z.of_nat (length (cs (NilEmpty.string_of_uint d))));
    assert (0 ≤ P) by (apply Z.pow_nonneg; lia); nia.
Qed.

(** The rendering of a positive number does not start with the digit 0. *)
Lemma to_uint_head p : ∀ d, Pos.to_uint p ≠ Decimal.D0 d.
Proof.
  intros d Hd.
  pose proof (Unsigned.to_of (Pos.to_uint p)) as Hn.
  rewrite Unsigned.of_to in Hn. cbn [N.to_uint] in Hn.
  unfold Decimal.unorm in Hn.
  destruct (Decimal.nzhead (Pos.to_uint p)) eqn:Hz;
    first [ by apply (Unsigned.to_uint_nonzero p)
          | by apply DecimalFacts.nzhead_nonzero in Hz
          | congruence ].
Qed.

Lemma dec_length_pos p (k : nat) :
  Z.pos p < 10 ^ Z.of_nat k → (length (dec (Z.pos p)) ≤ k)%nat.
Proof.
  intros Hp. rewrite dec_pos.
  pose proof (uint_val_to_uint p) as Hval.
  pose proof (to_uint_head p) as Hhead.
  pose proof (Unsigned.to_uint_nonnil p) as Hnil.
  assert (Hlow : 10 ^ (Z.of_nat (length (cs (NilEmpty.string_of_uint
                   (Pos.to_uint p)))) - 1) ≤ Z.pos p).
  { rewrite <- Hval. destruct (Pos.to_uint p) as [|d|d|d|d|d|d|d|d|d|d];
      [done | by destruct (Hhead d) | ..];
      cbn [NilEmpty.string_of_uint cs list_ascii_of_string length uint_val];
      fold (cs (NilEmpty.string_of_uint d));
      rewrite Nat2Z.inj_succ;
      replace (Z.succ (Z.of_nat (length (cs (NilEmpty.string_of_uint d)))) - 1)
        with (Z.of_nat (length (cs (NilEmpty.string_of_uint d)))) by lia;
      (etrans; [|apply uint_val_lower; lia]);
      set (P := 10 ^ Z.of_nat (length (cs (NilEmpty.string_of_uint d))));
      assert (0 ≤ P) by (apply Z.pow_nonneg; lia); nia. }
  set (n := length (cs (NilEmpty.string_of_uint (Pos.to_uint p)))) in *.
  destruct (decide (n ≤ k)%nat) as [|Hgt]; [done|]. exfalso.
  assert (10 ^ Z.of_nat k ≤ 10 ^ (Z.of_nat n - 1))
    by (apply Z.pow_le_mono_r; lia).
  lia.
Qed.

(** A number below [10 ^ k] is printed with at most [k] digits. *)
Lemma dec_length z (k : nat) :
  0 ≤ z < 10 ^ Z.of_nat k → (1 ≤ k)%nat → (length (dec z) ≤ k)%nat.
Proof.
  intros [Hz Hk] Hk1. destruct z as [|p|p]; [done | | lia].
  by apply dec_length_pos.
Qed.

Lemma dec_length_u64 z : (length (dec (u64 z)) ≤ 20)%nat.
Proof.
  apply dec_length; [|lia]. unfold u64.
  pose proof (Z.mod_pos_bound z (2 ^ 64) ltac:(lia)). lia.
Qed.

Lemma dec_length_range z : 0 ≤ z < 2 ^ 64 → (length (dec z) ≤ 20)%nat.
Proof. intros Hz. apply dec_length; lia. Qed.

(** ** The client on the report of the module *)

Section Report_lines.
Context `{Arch}.


Lemma ulong_range z :
  0 ≤ BITS_PER_LONG ≤ 64 → 0 ≤ ulong z < 2 ^ 64.
Proof.
  intros Hb. unfold ulong.
  assert (0 < 2 ^ BITS_PER_LONG) by (apply Z.pow_pos_nonneg; lia).
  pose proof (Z.mod_pos_bound z (2 ^ BITS_PER_LONG) ltac:(done)).
  assert (2 ^ BITS_PER_LONG ≤ 2 ^ 64) by (apply Z.pow_le_mono_r; lia).
  lia.
Qed.



Lemma ulong_idem z : ulong (ulong z) = ulong z.
Proof. unfold ulong. apply Zmod_mod. Qed.

Lemma u64_idem z : u64 (u64 z) = u64 z.
Proof. unfold u64. apply Zmod_mod. Qed.

End Report_lines.

Ltac whole_line_with body :=
  exists body; split; [by rewrite <- ?app_assoc|]; split;
  [ repeat apply Forall_app_2;
    first [ apply plain_no_lf, dec_plain
          | assumption
          | by repeat constructor ]
  | rewrite !length_app; cbn [length cs list_ascii_of_string]; lia ].




Lemma io_stats_line_whole a b :
  0 ≤ a < 2 ^ 64 → 0 ≤ b < 2 ^ 64 → whole_line (io_stats_line a b).
Proof.
  intros Ha%dec_length_range Hb%dec_length_range. unfold io_stats_line.
  whole_line_with (cs "io_stats:" ++ dec a ++ [COMMA] ++ dec b).
Qed.


Lemma history_line_whole i cpu mem :
  0 ≤ i < 2 ^ 64 → whole_line (history_line (i, cpu, mem)).
Proof.
  intros Hi%dec_length_range.
  pose proof (dec_length_u64 cpu). pose proof (dec_length_u64 mem).
  unfold history_line.
  whole_line_with (dec i ++ [COMMA] ++ dec (u64 cpu) ++ [COMMA] ++ dec (u64 mem)).
Qed.

Lemma history_lines_whole h :
  Forall whole_line (history_line <$> history_rows h).
Proof.
  apply Forall_fmap. unfold history_rows. apply Forall_fmap.
  apply Forall_seqZ. intros i Hi. cbn. apply history_line_whole.
  unfold HISTORY_SIZE in Hi. lia.
Qed.

Section Client_on_report.
Context `{Arch}.

Lemma process_line_whole p :
  0 ≤ BITS_PER_LONG ≤ 64 → row_fits p → whole_line (process_line p).
Proof.
  intros Hb (Hpid & Hlen & Hcomm).
  assert (length (dec (pid p)) ≤ 20)%nat by (apply dec_length_range; lia).
  pose proof (dec_length_u64 (cpu_time p)).
  pose proof (dec_length_range _ (ulong_range (vm_size p) Hb)).
  unfold process_line.
  whole_line_with (dec (pid p) ++ [COMMA] ++ comm p ++ [COMMA]
                     ++ dec (u64 (cpu_time p)) ++ [COMMA]
                     ++ dec (ulong (vm_size p))).
Qed.

Lemma read_stats_other_keys lines stats :
  Forall (fun line => key_of line ∉ parsed_keys) lines →
  read_stats lines stats = stats.
Proof.
  induction 1 as [|line lines Hline _ IH]; [done|].
  cbn [read_stats fold_left]. rewrite parse_line_other_key by done.
  apply IH.
Qed.

Lemma report_tail_keys h rows :
  Forall (fun line => key_of line ∉ parsed_keys)
    ((history_line <$> history_rows h)
       ++ [[LF]; cs "top_processes:" ++ [LF]] ++ (process_line <$> rows)).
Proof.
  apply Forall_app_2; [|apply Forall_app_2].
  - apply Forall_fmap, Forall_forall. intros [[i cpu] mem] _.
    apply key_of_number.
  - repeat constructor; apply (bool_decide_eq_false_1 _); reflexivity.
  - apply Forall_fmap, Forall_forall. intros p _. apply key_of_number.
Qed.

Lemma parse_io_stats_line a b stats :
  parse_line (io_stats_line a b) stats = stats.
Proof.
  apply parse_line_other_key.
  assert (key_of (io_stats_line a b) = cs "io_stats") as -> by reflexivity.
  apply (bool_decide_eq_false_1 _). reflexivity.
Qed.


End Client_on_report.

(** X19.  The [process_count] line reports the number of tasks enumerated,
    which the capacity of the table does not bound, while the
    [top_processes] section never has more than 50 rows. *)
Theorem process_count_uncapped (m : seq_file) (env : raw_metrics)
    (tp : list process_stats) :
  get_process_count m env
  = m ++ process_count_line (Z.of_nat (length (tasks env)))
  ∧ (length (top_rows (take (Z.to_nat MAX_PROCESSES) tp))
     ≤ Z.to_nat MAX_PROCESSES)%nat.
Proof.
  split; [apply process_count_all|].
  etrans; [apply top_rows_le|]. rewrite length_take. lia.
Qed.

(** * The further properties at concrete inputs *)

Lemma reachable_state_invariant_witness :
  let st := run (H := lp64)
              [Tick (reading 1 2); Write (Some <$> cs "disable");
               Tick (reading 3 4)] init_state in
  0 ≤ history_idx (head (stats_history st)) 59
    < Z.of_nat (length (cpu_usage (stats_history st))).
Proof.
  intros st.
  apply (proj2 (reachable_state_invariant (H := lp64)
                  [Tick (reading 1 2); Write (Some <$> cs "disable");
                   Tick (reading 3 4)]) 59).
  unfold HISTORY_SIZE. lia.
Defined.

Lemma control_write_idempotent_witness :
  snd (control_write (Some <$> cs "enable") init_state) = init_state.
Proof.
  apply (proj1 (proj2 control_write_idempotent)).
  - by exists [].
  - reflexivity.
Defined.

Lemma control_write_reads_31_bytes_witness :
  let txt := cs "disable" ++ replicate 24 " "%char in
  control_write ((Some <$> txt) ++ [None; None]) init_state
  = (31 + Z.of_nat (length [None; None : option ascii]),
     snd (control_write (Some <$> txt) init_state)).
Proof.
  intros txt.
  apply (control_write_reads_31_bytes txt [None; None] init_state).
  reflexivity.
Defined.

Lemma fgets_lines_partition_witness :
  concat (fgets_lines 3 (cs "a" ++ [LF] ++ cs "b")) = cs "a" ++ [LF] ++ cs "b".
Proof. exact (proj1 (fgets_lines_partition (cs "a" ++ [LF] ++ cs "b"))). Defined.


(** * The lines the client does not consume *)

Section Client_frame.
Context `{Arch}.

(** The text of the [io_stats], [history] and [top_processes] sections, cut
    into the lines it is printed in. *)
Lemma unparsed_sections_lines env st :
  show_top_processes
    (show_history (get_io_stats [] env) (stats_history st)) (top_processes st)
  = concat
      ([io_stats_line (ulong (Zsum (ioac_read_bytes <$> tasks env)))
                      (ulong (Zsum (ioac_write_bytes <$> tasks env)));
        history_header]
       ++ (history_line <$> history_rows (stats_history st))
       ++ [[LF]; cs "top_processes:" ++ [LF]]
       ++ (process_line <$>
             top_rows (take (Z.to_nat MAX_PROCESSES) (top_processes st)))).
Proof.
  unfold show_top_processes, show_history, get_io_stats.
  rewrite io_sums_total, !printf_loop.
  unfold seq_printf, seq_puts, top_processes_header.
  rewrite !concat_app. cbn [concat app].
  rewrite <- !app_assoc, ?app_nil_r. reflexivity.
Qed.

(** C10, as the code has it.  [parse_line] leaves the structure as it is
    for every line whose key, the text before the first colon once the
    colons at the start of the line are skipped, is none of the four keys;
    for a line that does not start with a colon that key is the text before
    the first colon.  The [io_stats] line, the [history:] line, every
    history row, the empty line and the [top_processes:] line are such
    lines, and so is every table row that fits a line, which [fgets] then
    returns whole: a row with a pid that is not negative and a name of at
    most 15 characters without line feed.  When every row printed is such
    a row, [read_stats] applied to the text of the [io_stats], [history]
    and [top_processes] sections changes nothing. *)
Theorem parse_line_frame :
  (∀ line stats, key_of line ∉ parsed_keys → parse_line line stats = stats)
  ∧ (∀ line stats,
       hd_error line ≠ Some COLON →
       text_before_first_colon line ∉ parsed_keys →
       parse_line line stats = stats)
  ∧ (∀ stats read_bytes write_bytes,
       parse_line (io_stats_line read_bytes write_bytes) stats = stats)
  ∧ (∀ stats, parse_line history_header stats = stats)
  ∧ (∀ stats r, parse_line (history_line r) stats = stats)
  ∧ (∀ stats, parse_line [LF] stats = stats)
  ∧ (∀ stats, parse_line (cs "top_processes:" ++ [LF]) stats = stats)
  ∧ (∀ stats p,
       0 ≤ BITS_PER_LONG ≤ 64 → row_fits p →
       fgets_lines (length (process_line p)) (process_line p) = [process_line p]
       ∧ parse_line (process_line p) stats = stats)
  ∧ (∀ env st stats,
       0 ≤ BITS_PER_LONG ≤ 64 →
       Forall row_fits
         (top_rows (take (Z.to_nat MAX_PROCESSES) (top_processes st))) →
       read_stats_file
         (Some (show_top_processes
                  (show_history (get_io_stats [] env) (stats_history st))
                  (top_processes st))) stats
       = Some stats).
Proof.
  split; [apply parse_line_other_key|].
  split.
  { intros line stats Hhd Hkey. apply parse_line_other_key.
    unfold key_of. by rewrite skip_delims_head. }
  split; [intros; apply parse_io_stats_line|].
  split; [done|].
  split.
  { intros stats [[i cpu] mem]. apply parse_line_other_key.
    unfold history_line. apply key_of_number. }
  split; [done|]. split; [done|]. split.
  - intros stats p Hb Hp. split.
    + pose proof (fgets_lines_whole [process_line p]
        (length (process_line p))) as Hf.
      cbn [concat] in Hf. rewrite app_nil_r in Hf. apply Hf; [|done].
      constructor; [by apply process_line_whole | constructor].
    + apply parse_line_other_key. unfold process_line. apply key_of_number.
  - intros env st stats Hb Hrows. unfold read_stats_file. f_equal.
    rewrite unparsed_sections_lines.
    rewrite fgets_lines_whole; [| |done].
    + apply read_stats_other_keys. constructor; [|constructor].
      * assert (key_of (io_stats_line
            (ulong (Zsum (ioac_read_bytes <$> tasks env)))
            (ulong (Zsum (ioac_write_bytes <$> tasks env)))) = cs "io_stats")
          as -> by reflexivity.
        apply (bool_decide_eq_false_1 _). reflexivity.
      * apply (bool_decide_eq_false_1 _). reflexivity.
      * apply report_tail_keys.
    + apply Forall_app_2; [|repeat apply Forall_app_2].
      * repeat apply Forall_cons_2; [..|apply Forall_nil_2].
        -- apply io_stats_line_whole; by apply ulong_range.
        -- exists (cs "history:"). split; [done|].
           split; [by repeat constructor | cbn; lia].
      * apply history_lines_whole.
      * repeat apply Forall_cons_2; [..|apply Forall_nil_2];
          [exists [] | exists (cs "top_processes:")];
          (split; [done|]; split; [by repeat constructor | cbn; lia]).
      * apply Forall_fmap. eapply Forall_impl; [exact Hrows|].
        intros p Hp. by apply process_line_whole.
Qed.

End Client_frame.

(** A table row whose name holds a line feed does not fit a line: [fgets]
    returns it in two parts, and here the second part has the key
    [cpu_stats] and overwrites the CPU fields. *)
Lemma table_row_name_with_line_feed :
  let p := {| pid := 1234; cpu_time := 5; vm_size := 4096;
              comm := LF :: cs "cpu_stats:7" |} in
  fgets_lines (length (process_line (H := lp64) p)) (process_line (H := lp64) p)
  = [cs "1234," ++ [LF]; cs "cpu_stats:7,5,4096" ++ [LF]]
  ∧ user (parse_line (H := lp64) (cs "cpu_stats:7,5,4096" ++ [LF]) zero_stats) = 7.
Proof. split; reflexivity. Qed.

(** The three sections printed after one iteration on a system with two
    tasks. *)
Lemma parse_line_frame_witness :
  let env :=
    {| tasks := [user_task 1; user_task 2];
       possible_cpus := [];
       meminfo := {| totalram := 1000; freeram := 400 |};
       netdevs := [];
       jiffies_64 := 77;
       mem_available := 1600 |} in
  let st := monitor_iteration (H := lp64) env init_state in
  read_stats_file (H := lp64)
    (Some (show_top_processes (H := lp64)
             (show_history (get_io_stats (H := lp64) [] env) (stats_history st))
             (top_processes st))) zero_stats
  = Some zero_stats.
Proof.
  intros env st.
  destruct (parse_line_frame (H := lp64))
    as (_ & _ & _ & _ & _ & _ & _ & _ & Hsections).
  apply Hsections.
  - simpl. lia.
  - repeat (apply Forall_cons_2 || apply Forall_nil_2);
      (split; [vm_compute; split; [discriminate | reflexivity] |]);
      (split; [vm_compute; lia | repeat constructor; discriminate]).
Defined.

(** The lines of a report with values that fit their fields. *)
Lemma parse_line_reads_kernel_lines_witness :
  parse_line (H := lp64) (cpu_stats_line 4 2 30 2) zero_stats
  = {| user := 4; nice := 2; system := 30; idle := 2;
       total_mem := 0; free_mem := 0; used_mem := 0; process_count := 0;
       rx_bytes := 0; tx_bytes := 0; rx_packets := 0; tx_packets := 0 |}.
Proof.
  apply (proj1 (parse_line_reads_kernel_lines (H := lp64) zero_stats) 4 2 30 2);
    lia.
Defined.
